(** * ArtistGrid/Trackers: the sync-download-archive pipeline of [main.py]

    A shallow embedding of the functions of [src/main.py] that the
    specification talks about, followed by the properties the
    specification states about them.

    Conventions of the embedding.
    - A Python [str] is a [string]; one character of the model is one code
      point below 256.  On that range [str.lower], [str.strip],
      [str.splitlines] and the character classes of the regular
      expressions are written out in full.
    - A Python [dict] is an insertion-ordered association list
      ([Dict.get], [Dict.set]); [Dict.to_map] gives the finite map it
      stands for, which is what "equal as mappings" refers to.
    - Exceptions are values of [exn]; a pure function that may raise
      returns a [result]; code that reads or writes files, logs, sleeps or
      calls the network runs in the monad [io], a state monad over [world]
      in which an exception keeps the writes made before it.
    - The outside (HTTP answers, the archive service, the clock, the
      [csv] and [zipfile] readers, the hash function) is a record of
      functions, [env]; every call to the outside is recorded in the
      [trace] of the world.
    - Files are a finite map from paths to contents.  Directories are not
      modelled: [os.makedirs] has no counterpart, and opening a file for
      writing fails only for a path that can only name a directory.
    - The threads that [run_once] starts are recorded as [Spawn] events;
      [archive_file] is the body of one such thread, run on its own. *)

From Stdlib Require Import ZArith NArith Ascii String List Bool Lia.
From stdpp Require Import base option list gmap strings.

Local Open Scope Z_scope.

(** ** Strings *)

Module Str.

Fixpoint all (P : ascii -> bool) (s : string) : bool :=
  match s with
  | EmptyString => true
  | String c s' => P c && all P s'
  end.

Fixpoint filter (P : ascii -> bool) (s : string) : string :=
  match s with
  | EmptyString => EmptyString
  | String c s' => if P c then String c (filter P s') else filter P s'
  end.

Fixpoint map (f : ascii -> ascii) (s : string) : string :=
  match s with
  | EmptyString => EmptyString
  | String c s' => String (f c) (map f s')
  end.

(** [lo <= c <= hi] on code points: a range [lo-hi] of a character class. *)
Definition in_range (lo hi c : ascii) : bool :=
  (N_of_ascii lo <=? N_of_ascii c)%N && (N_of_ascii c <=? N_of_ascii hi)%N.

(** [s.replace(a, b)] for one-character [a] and [b]. *)
Definition replace_char (a b : ascii) (s : string) : string :=
  map (fun c => if Ascii.eqb c a then b else c) s.

(** [s.replace(a, "")] for a one-character [a]. *)
Definition remove_char (a : ascii) (s : string) : string :=
  filter (fun c => negb (Ascii.eqb c a)) s.

(** [str.lower] on code points below 256: [A-Z] and the capital letters
    U+00C0..U+00DE (U+00D7, the multiplication sign, apart) move up by 32. *)
Definition lower_char (c : ascii) : ascii :=
  if in_range "A" "Z" c
     || (in_range "192" "222" c && negb (Ascii.eqb c "215"))
  then ascii_of_N (N_of_ascii c + 32)
  else c.

Definition lower (s : string) : string := map lower_char s.

(** The characters [str.strip()] removes (str.isspace) below 256. *)
Definition is_space (c : ascii) : bool :=
  in_range "009" "013" c || in_range "028" "032" c
  || Ascii.eqb c "133" || Ascii.eqb c "160".

Fixpoint lstrip (s : string) : string :=
  match s with
  | EmptyString => EmptyString
  | String c s' => if is_space c then lstrip s' else s
  end.

(** Drops the trailing white space: a character is kept when something
    that is kept follows it, or when it is not white space. *)
Fixpoint rstrip (s : string) : string :=
  match s with
  | EmptyString => EmptyString
  | String c s' =>
      match rstrip s' with
      | EmptyString => if is_space c then EmptyString else String c EmptyString
      | r => String c r
      end
  end.

Definition strip (s : string) : string := rstrip (lstrip s).

End Str.

(** ** Regular expressions of the program

    Both regular expressions of [main.py] have the shape
    [literal ( [class]{n} ) literal]: no alternative and no variable
    repetition, so a match at a given position is unique and [re.search]
    returns the match at the leftmost position that has one. *)

Module Re.

Record pattern := Pattern {
  before : string;           (* the literal text before the group *)
  class : ascii -> bool;     (* the character class of the group *)
  count : nat;               (* the repetition count {n} *)
  after : string             (* the literal text after the group *)
}.

(** Reads the literal [lit] at the head of [s]; returns what follows. *)
Fixpoint literal (lit s : string) : option string :=
  match lit, s with
  | EmptyString, _ => Some s
  | String c lit', String d s' =>
      if Ascii.eqb c d then literal lit' s' else None
  | String _ _, EmptyString => None
  end.

(** Reads exactly [n] characters of the class; returns them and the rest. *)
Fixpoint repeat (cls : ascii -> bool) (n : nat) (s : string)
  : option (string * string) :=
  match n, s with
  | O, _ => Some (EmptyString, s)
  | S n', String c s' =>
      if cls c then
        match repeat cls n' s' with
        | Some (g, r) => Some (String c g, r)
        | None => None
        end
      else None
  | S _, EmptyString => None
  end.

(** A match that starts at the head of [s]: the text of group 1. *)
Definition match_here (p : pattern) (s : string) : option string :=
  match literal (before p) s with
  | None => None
  | Some r1 =>
      match repeat (class p) (count p) r1 with
      | None => None
      | Some (g, r2) =>
          match literal (after p) r2 with
          | None => None
          | Some _ => Some g
          end
      end
  end.

(** [re.search(p, s)]: group 1 of the leftmost match, [None] without one. *)
Fixpoint search (p : pattern) (s : string) : option string :=
  match match_here p s with
  | Some g => Some g
  | None =>
      match s with
      | EmptyString => None
      | String _ s' => search p s'
      end
  end.

End Re.

(** ** Name Normalizer and URLs (main.py, lines 24-51) *)

Definition REMOTE_CSV_URL : string := "https://sheets.artistgrid.cx/artists.csv".
Definition EXPORT_DIR : string := "downloads".

(** The class [[a-z0-9]]. *)
Definition is_lower_alnum (c : ascii) : bool :=
  Str.in_range "a" "z" c || Str.in_range "0" "9" c.

(** The class [[a-zA-Z0-9_.-]]. *)
Definition is_filename_char (c : ascii) : bool :=
  Str.in_range "a" "z" c || Str.in_range "A" "Z" c || Str.in_range "0" "9" c
  || Ascii.eqb c "_" || Ascii.eqb c "." || Ascii.eqb c "-".

(** The class [[a-zA-Z0-9-_]]: after the range [0-9] the [-] is literal. *)
Definition is_id_char (c : ascii) : bool :=
  Str.in_range "a" "z" c || Str.in_range "A" "Z" c || Str.in_range "0" "9" c
  || Ascii.eqb c "-" || Ascii.eqb c "_".

Definition normalize_artist_name (name : string) : string :=
  let name := Str.lower name in
  let name := Str.replace_char "$" "s" name in
  Str.filter is_lower_alnum name.

Definition sanitize_filename (filename : string) : string :=
  let filename := Str.replace_char "$" "s" filename in
  let filename := Str.remove_char " " filename in
  Str.filter is_filename_char filename.

Definition SHEET_PREFIX : string := "https://docs.google.com/spreadsheets/d/".

(** [https://docs\.google\.com/spreadsheets/d/([a-zA-Z0-9-_]{44})] *)
Definition clean_url_re : Re.pattern :=
  Re.Pattern SHEET_PREFIX is_id_char 44 "".

(** [/d/([a-zA-Z0-9-_]{44})/] *)
Definition sheet_id_re : Re.pattern :=
  Re.Pattern "/d/" is_id_char 44 "/".

Definition clean_url (url : string) : option string :=
  match Re.search clean_url_re url with
  | Some g => Some (SHEET_PREFIX +:+ g +:+ "/")
  | None => None
  end.

Definition extract_sheet_id (url : string) : option string :=
  Re.search sheet_id_re url.

(** ** Python values, exceptions, dictionaries *)

(** A value that is a [str] or [None]: a cell of a [csv.DictReader] row,
    a value of the metadata dictionary, the result of [sha256_of_file]. *)
Inductive pyval :=
  | PStr (s : string)
  | PNone.

(** [f"{v}"] *)
Definition format_pyval (v : pyval) : string :=
  match v with
  | PStr s => s
  | PNone => "None"
  end.

Inductive exn :=
  | KeyError
  | AttributeError
  | TypeError
  | ValueError
  | HTTPError (status_code : Z)     (* raised by [raise_for_status] *)
  | RequestException                (* any other failure of [requests.get] *)
  | CsvError
  | BadZipFile
  | OSError
  | WaybackError.

Definition result (A : Type) : Type := exn + A.

Definition ok {A} (a : A) : result A := inr a.
Definition throw {A} (e : exn) : result A := inl e.

Definition rbind {A B} (m : result A) (f : A -> result B) : result B :=
  match m with
  | inl e => inl e
  | inr a => f a
  end.

Module Dict.
Section Dict.
Context {V : Type}.

(** [d.get(k)], with [None] for "absent". *)
Fixpoint get (k : string) (d : list (string * V)) : option V :=
  match d with
  | [] => None
  | (k', v) :: d' => if String.eqb k k' then Some v else get k d'
  end.

(** [d[k] = v]: an existing key keeps its place, a new one goes last. *)
Fixpoint set (k : string) (v : V) (d : list (string * V))
  : list (string * V) :=
  match d with
  | [] => [(k, v)]
  | (k', v') :: d' =>
      if String.eqb k k' then (k', v) :: d' else (k', v') :: set k v d'
  end.

(** [dict(pairs)] and the dictionary comprehensions: the pairs are
    stored one after the other into an empty dictionary. *)
Definition of_items (l : list (string * V)) : list (string * V) :=
  fold_left (fun d kv => set (fst kv) (snd kv) d) l [].

(** The finite map a dictionary stands for. *)
Definition to_map (d : list (string * V)) : gmap string V :=
  list_to_map d.

(** Distinct keys: what every dictionary built by [set] satisfies. *)
Definition wf (d : list (string * V)) : Prop := NoDup (d.*1).
End Dict.
End Dict.

Abbreviation pydict V := (list (string * V)) (only parsing).

(** ** Catalog Fetcher: [parse_csv] (main.py, lines 165-175) *)

(** A row of [csv.DictReader]: column name to cell; a short row has [None]
    in the columns it lacks. *)
Abbreviation row := (list (string * pyval)) (only parsing).

(** [row.get("Best", "").strip().lower()] *)
Definition best_of (r : row) : result string :=
  match Dict.get "Best" r with
  | None => ok (Str.lower (Str.strip ""))
  | Some (PStr s) => ok (Str.lower (Str.strip s))
  | Some PNone => throw AttributeError
  end.

(** [normalize_artist_name(row["Artist Name"])] *)
Definition artist_of (r : row) : result string :=
  match Dict.get "Artist Name" r with
  | None => throw KeyError
  | Some (PStr s) => ok (normalize_artist_name s)
  | Some PNone => throw AttributeError
  end.

(** [clean_url(row["URL"])]; [re.search] refuses [None]. *)
Definition url_of (r : row) : result (option string) :=
  match Dict.get "URL" r with
  | None => throw KeyError
  | Some (PStr s) => ok (clean_url s)
  | Some PNone => throw TypeError
  end.

(** The body of the loop of [parse_csv], on one row. *)
Definition parse_row (res : pydict string) (r : row)
  : result (pydict string) :=
  rbind (best_of r) (fun best =>
  if negb (String.eqb best "yes") then ok res else
  rbind (artist_of r) (fun artist =>
  rbind (url_of r) (fun url =>
  match url with
  | Some u => if negb (String.eqb artist "") then ok (Dict.set artist u res)
              else ok res
  | None => ok res
  end))).

Fixpoint parse_rows (res : pydict string) (rows : list row)
  : result (pydict string) :=
  match rows with
  | [] => ok res
  | r :: rows' => rbind (parse_row res r) (fun res' => parse_rows res' rows')
  end.

(** [parse_csv(text)].  [reader text] is what iterating
    [csv.DictReader(StringIO(text))] yields: the rows, and the exception
    that ends the iteration when the reader raises one. *)
Definition parse_csv (reader : string -> list row * option exn)
    (text : string) : result (pydict string) :=
  let '(rows, failure) := reader text in
  rbind (parse_rows [] rows) (fun res =>
  match failure with
  | Some e => throw e
  | None => ok res
  end).

(** ** Change Detector (main.py, lines 207-210) *)

(** [artist not in cached_data or cached_data[artist] != url] *)
Definition changed (cached : pydict string) (artist url : string) : bool :=
  match Dict.get artist cached with
  | None => true
  | Some u => negb (String.eqb u url)
  end.

(** The comprehension that builds [to_update]. *)
Definition to_update (remote cached : pydict string) : pydict string :=
  fold_left
    (fun acc kv => if changed cached (fst kv) (snd kv)
                   then Dict.set (fst kv) (snd kv) acc else acc)
    remote [].

(** ** Calendar dates: [strptime], [strftime], comparison *)

Record date := Date { year : Z; month : Z; day : Z }.

Definition is_leap (y : Z) : bool :=
  (y mod 4 =? 0) && (negb (y mod 100 =? 0) || (y mod 400 =? 0)).

Definition days_in_month (y m : Z) : Z :=
  if m =? 2 then (if is_leap y then 29 else 28)
  else if (m =? 4) || (m =? 6) || (m =? 9) || (m =? 11) then 30
  else 31.

(** What the [datetime] constructor accepts. *)
Definition valid_date (d : date) : bool :=
  (1 <=? year d) && (year d <=? 9999)
  && (1 <=? month d) && (month d <=? 12)
  && (1 <=? day d) && (day d <=? days_in_month (year d) (month d)).

(** [a > b] on dates. *)
Definition date_gt (a b : date) : bool :=
  (year b <? year a)
  || ((year b =? year a)
      && ((month b <? month a)
          || ((month b =? month a) && (day b <? day a)))).

Definition digit (c : ascii) : option Z :=
  if Str.in_range "0" "9" c then Some (Z.of_N (N_of_ascii c) - 48) else None.

Definition digit_in (lo hi : Z) (c : ascii) : option Z :=
  match digit c with
  | Some v => if (lo <=? v) && (v <=? hi) then Some v else None
  | None => None
  end.

(** The directive [%d], whose expression is
    [3[0-1]|[1-2]\d|0[1-9]|[1-9]| [1-9]]: the first alternative that
    matches at the head of [s] gives the day and what is left. *)
Definition read_day (s : string) : option (Z * string) :=
  let two (lo1 hi1 lo2 hi2 : Z) :=
    match s with
    | String a (String b r) =>
        match digit_in lo1 hi1 a, digit_in lo2 hi2 b with
        | Some x, Some y => Some (10 * x + y, r)
        | _, _ => None
        end
    | _ => None
    end in
  let one :=
    match s with
    | String a r =>
        match digit_in 1 9 a with Some x => Some (x, r) | None => None end
    | _ => None
    end in
  let blank :=
    match s with
    | String " " (String b r) =>
        match digit_in 1 9 b with Some y => Some (y, r) | None => None end
    | _ => None
    end in
  match two 3 3 0 1 with Some x => Some x | None =>
  match two 1 2 0 9 with Some x => Some x | None =>
  match two 0 0 1 9 with Some x => Some x | None =>
  match one with Some x => Some x | None => blank end end end end.

(** The candidates of the directive [%m], [1[0-2]|0[1-9]|[1-9]], in the
    order in which the matcher tries them. *)
Definition month_candidates (s : string) : list (Z * string) :=
  let two (lo1 hi1 lo2 hi2 : Z) :=
    match s with
    | String a (String b r) =>
        match digit_in lo1 hi1 a, digit_in lo2 hi2 b with
        | Some x, Some y => [(10 * x + y, r)]
        | _, _ => []
        end
    | _ => []
    end in
  let one :=
    match s with
    | String a r =>
        match digit_in 1 9 a with Some x => [(x, r)] | None => [] end
    | _ => []
    end in
  two 1 1 0 2 ++ two 0 0 1 9 ++ one.

(** The rest of the expression after a month candidate: [-] and a day. *)
Definition read_dash_day (s : string) : option (Z * string) :=
  match s with
  | String "-" r => read_day r
  | _ => None
  end.

Fixpoint first_month (cands : list (Z * string)) : option (Z * Z * string) :=
  match cands with
  | [] => None
  | (m, r) :: cands' =>
      match read_dash_day r with
      | Some (d, r') => Some (m, d, r')
      | None => first_month cands'
      end
  end.

(** [datetime.strptime(s, "%Y-%m-%d").date()]: the expression
    [(\d\d\d\d)-(%m)-(%d)] is matched at the start of [s]; text left
    after the match, or a date the calendar does not have, is a
    [ValueError]; an argument that is not a [str] is a [TypeError]. *)
Definition strptime (v : pyval) : result date :=
  match v with
  | PNone => throw TypeError
  | PStr (String y1 (String y2 (String y3 (String y4 (String "-" r))))) =>
      match digit y1, digit y2, digit y3, digit y4 with
      | Some a, Some b, Some c, Some d =>
          match first_month (month_candidates r) with
          | Some (m, dd, EmptyString) =>
              let dt := Date (1000 * a + 100 * b + 10 * c + d) m dd in
              if valid_date dt then ok dt else throw ValueError
          | _ => throw ValueError
          end
      | _, _, _, _ => throw ValueError
      end
  | PStr _ => throw ValueError
  end.

Definition digit_char (v : Z) : ascii := ascii_of_N (Z.to_N (48 + v mod 10)).

(** [d.strftime("%Y-%m-%d")], for a year of four digits. *)
Definition strftime (d : date) : string :=
  String (digit_char (year d / 1000)) (String (digit_char (year d / 100))
  (String (digit_char (year d / 10)) (String (digit_char (year d))
  (String "-" (String (digit_char (month d / 10)) (String (digit_char (month d))
  (String "-" (String (digit_char (day d / 10)) (String (digit_char (day d))
  EmptyString))))))))).

(** [should_archive_today(lastarchive)] (main.py, lines 80-85), at a
    moment whose date is [today]. *)
Definition should_archive_today (today : date) (lastarchive : pyval) : bool :=
  match rbind (strptime lastarchive)
              (fun last_time => ok (date_gt today last_time)) with
  | inr b => b
  | inl _ => true
  end.

(** ** The world and the monad of effects *)

(** What the program does to the outside, in order. *)
Inductive event :=
  | Get (url : string)                      (* [requests.get(url)] *)
  | Sleep (seconds : Z)                     (* [time.sleep(seconds)] *)
  | Archive (public_url : string)           (* [WaybackMachineSaveAPI(..).save()] *)
  | Spawn (file_path public_url : string).  (* a thread running [archive_file] *)

(** A response: [r.status_code] and the body ([r.content], [r.text]). *)
Record response := Response { status_code : Z; content : string }.

Inductive zip_member :=
  | Unopenable               (* [zip_ref.open(member)] raises *)
  | Unreadable               (* [source.read()] raises *)
  | Stored (data : string).

(** The outside world, as the program sees it in one cycle: a URL is
    answered the same way each time it is asked. *)
Record env := Env {
  (* [requests.get(url)]: the response, or [None] when it raises *)
  http_get : string -> option response;
  (* iterating [csv.DictReader(StringIO(text))] *)
  dict_reader : string -> list row * option exn;
  (* [zipfile.ZipFile] on a file with this content: its members in the
     order of [namelist()], or [None] when it raises [BadZipFile] *)
  zip_file : string -> option (list (string * zip_member));
  (* [WaybackMachineSaveAPI(public_url, ..).save()] *)
  wayback_save : string -> result string;
  (* [hashlib.sha256] of a content, as [hexdigest()] *)
  sha256_hex : string -> string;
  (* the calendar date at an instant, in seconds *)
  date_of : Z -> date;
  (* the draw of [random.randint(7, 13)] is [7 + random_draw mod 7] *)
  random_draw : Z;
  (* [urllib.parse.quote] *)
  quote : string -> string
}.

(** The state the program reads and writes.  Creating directories and
    opening a regular file for writing are taken to succeed. *)
Record world := World {
  files : gmap string string;                 (* regular files: path to content *)
  cache : option (list (string * string));    (* the data rows of CACHE_FILE *)
  down_log : list string;                     (* the lines of host/down.txt *)
  now : Z;                                    (* the instant, in seconds *)
  trace : list event                          (* oldest first *)
}.

Definition io (A : Type) : Type := world -> result A * world.

Definition ret {A} (a : A) : io A := fun w => (inr a, w).
Definition raise {A} (e : exn) : io A := fun w => (inl e, w).

Definition bind {A B} (m : io A) (f : A -> io B) : io B :=
  fun w =>
    match m w with
    | (inr a, w') => f a w'
    | (inl e, w') => (inl e, w')
    end.

(** [try: m  except Exception as e: handler(e)] *)
Definition try_except {A} (m : io A) (handler : exn -> io A) : io A :=
  fun w =>
    match m w with
    | (inr a, w') => (inr a, w')
    | (inl e, w') => handler e w'
    end.

Definition lift {A} (r : result A) : io A := fun w => (r, w).
Definition gets {A} (f : world -> A) : io A := fun w => (inr (f w), w).
Definition modify (f : world -> world) : io unit := fun w => (inr tt, f w).

#[global] Instance io_ret : MRet io := @ret.
#[global] Instance io_bind : MBind io := fun A B f m => bind m f.

Definition set_files (f : gmap string string) (w : world) : world :=
  World f (cache w) (down_log w) (now w) (trace w).
Definition set_cache (c : option (list (string * string))) (w : world) : world :=
  World (files w) c (down_log w) (now w) (trace w).
Definition set_down_log (l : list string) (w : world) : world :=
  World (files w) (cache w) l (now w) (trace w).
Definition set_now (t : Z) (w : world) : world :=
  World (files w) (cache w) (down_log w) t (trace w).
Definition emit (e : event) (w : world) : world :=
  World (files w) (cache w) (down_log w) (now w) (trace w ++ [e]).

(** *** Paths and files *)

(** [os.path.basename]: what follows the last [/]. *)
Fixpoint basename (p : string) : string :=
  match p with
  | EmptyString => EmptyString
  | String c p' =>
      if Str.all (fun x => negb (Ascii.eqb x "/")) p'
      then (if Ascii.eqb c "/" then p' else p)
      else basename p'
  end.

Fixpoint ends_with_slash (p : string) : bool :=
  match p with
  | EmptyString => false
  | String c EmptyString => Ascii.eqb c "/"
  | String _ p' => ends_with_slash p'
  end.

(** [os.path.join(a, b)] *)
Definition path_join (a b : string) : string :=
  match b with
  | String "/" _ => b
  | _ => if String.eqb a "" || ends_with_slash a then a +:+ b
         else a +:+ "/" +:+ b
  end.

(** A path that names a directory whatever the disk holds. *)
Definition names_directory (p : string) : bool :=
  let b := basename p in
  String.eqb b "" || String.eqb b "." || String.eqb b "..".

(** [with open(path, "w" or "wb") as f: f.write(data)] *)
Definition write_file (path data : string) : io unit :=
  if names_directory path then raise OSError
  else modify (fun w => set_files (<[path := data]> (files w)) w).

(** The names [os.listdir(dir)] returns that [os.path.isfile] keeps. *)
Definition strip_dir (dir path : string) : option string :=
  match Re.literal (dir +:+ "/") path with
  | Some name =>
      if negb (String.eqb name "")
         && Str.all (fun x => negb (Ascii.eqb x "/")) name
      then Some name else None
  | None => None
  end.

Definition listdir_files (fs : gmap string string) (dir : string) : list string :=
  omap (fun kv => strip_dir dir (fst kv)) (map_to_list fs).

(** *** Failure Log (main.py, lines 40-43) *)

Definition log_down_host (url : string) : io unit :=
  modify (fun w => set_down_log (down_log w ++ [url]) w).

(** *** File metadata (main.py, lines 53-78) *)

(** The hash of the content of [path]; [None] when it cannot be read. *)
Definition file_hash (E : env) (fs : gmap string string) (path : string)
  : pyval :=
  match fs !! path with
  | Some data => PStr (sha256_hex E data)
  | None => PNone
  end.

Definition sha256_of_file (E : env) (path : string) : io pyval :=
  gets (fun w => file_hash E (files w) path).

Definition get_metadata_path (file_path : string) : string :=
  file_path +:+ ".meta".

(** The line boundaries of [str.splitlines] below 256. *)
Definition is_line_break (c : ascii) : bool :=
  Str.in_range "010" "013" c || Str.in_range "028" "030" c
  || Ascii.eqb c "133".

(** [text.splitlines()]; [skip_lf] holds just after a carriage return,
    whose line feed belongs to the same boundary. *)
Fixpoint splitlines_from (skip_lf : bool) (text : string) : list string :=
  match text with
  | EmptyString => []
  | String c text' =>
      if skip_lf && Ascii.eqb c "010" then splitlines_from false text'
      else if is_line_break c
      then EmptyString :: splitlines_from (Ascii.eqb c "013") text'
      else match splitlines_from false text' with
           | [] => [String c EmptyString]
           | l :: ls => String c l :: ls
           end
  end.

Definition splitlines (text : string) : list string :=
  splitlines_from false text.

(** [line.split(":", 1)] for a line with a colon; [None] without one. *)
Fixpoint split_colon (line : string) : option (string * string) :=
  match line with
  | EmptyString => None
  | String c line' =>
      if Ascii.eqb c ":" then Some (EmptyString, line')
      else match split_colon line' with
           | Some (k, v) => Some (String c k, v)
           | None => None
           end
  end.

(** [dict(line.split(":", 1) for line in lines if ":" in line)] *)
Definition parse_metadata (text : string) : pydict pyval :=
  Dict.of_items
    (omap (fun line =>
             match split_colon line with
             | Some (k, v) => Some (k, PStr v)
             | None => None
             end)
          (splitlines text)).

(** The record [load_metadata] finds in a set of files. *)
Definition read_metadata (fs : gmap string string) (file_path : string)
  : pydict pyval :=
  match fs !! get_metadata_path file_path with
  | None => []
  | Some text => parse_metadata text
  end.

Definition load_metadata (file_path : string) : io (pydict pyval) :=
  gets (fun w => read_metadata (files w) file_path).

(** The text [save_metadata] writes: [f"{key}:{value}\n"] for each item. *)
Fixpoint format_metadata (metadata : pydict pyval) : string :=
  match metadata with
  | [] => EmptyString
  | (key, value) :: rest =>
      key +:+ ":" +:+ format_pyval value +:+ String "010" EmptyString
      +:+ format_metadata rest
  end.

Definition save_metadata (file_path : string) (metadata : pydict pyval)
  : io unit :=
  write_file (get_metadata_path file_path) (format_metadata metadata).

(** *** Clock, network and archive service *)

Definition sleep (seconds : Z) : io unit :=
  modify (fun w => emit (Sleep seconds) (set_now (now w + seconds) w)).

(** [datetime.now().date()] *)
Definition today (E : env) : io date :=
  gets (fun w => date_of E (now w)).

(** [random.randint(7, 13)] *)
Definition randint_7_13 (E : env) : Z := 7 + random_draw E mod 7.

Definition requests_get (E : env) (url : string) : io response :=
  modify (emit (Get url));;
  match http_get E url with
  | Some r => mret r
  | None => raise RequestException
  end.

(** [r.raise_for_status()]: an [HTTPError] for the statuses 400 to 599;
    the exception remembers [r.status_code]. *)
Definition raise_for_status (r : response) : io unit :=
  if (400 <=? status_code r) && (status_code r <? 600)
  then raise (HTTPError (status_code r))
  else mret tt.

Definition wayback (E : env) (public_url : string) : io string :=
  modify (emit (Archive public_url));;
  lift (wayback_save E public_url).

(** ** Archive Throttler: [archive_file] (main.py, lines 87-110) *)

Definition archive_file (E : env) (file_path public_url : string) : io unit :=
  metadata ← load_metadata file_path;
  sha ← sha256_of_file E file_path;
  let lastarchive := default PNone (Dict.get "lastarchive" metadata) in
  date_now ← today E;
  if negb (should_archive_today date_now lastarchive) then mret tt else
  let delay := randint_7_13 E * 60 in
  sleep delay;;
  try_except
    (archive_url ← wayback E public_url;
     let metadata := Dict.set "sha256" sha metadata in
     date_now ← today E;
     let metadata :=
       Dict.set "lastarchive" (PStr (strftime date_now)) metadata in
     save_metadata file_path metadata)
    (fun e => mret tt).

(** ** Export Downloader: [download_exports] (main.py, lines 112-163) *)

(** The handler of both [try] blocks: the URL is logged when the
    exception is the [HTTPError] of a response with status 401. *)
Definition log_if_unauthorized (url : string) (e : exn) : io unit :=
  match e with
  | HTTPError status => if status =? 401 then log_down_host url else mret tt
  | _ => mret tt
  end.

(** The loop over [zip_ref.namelist()]. *)
Fixpoint extract_members (artist_dir : string)
    (members : list (string * zip_member)) : io unit :=
  match members with
  | [] => mret tt
  | (member, stored) :: rest =>
      let original_name := basename member in
      if String.eqb original_name "" then extract_members artist_dir rest else
      let sanitized_name := sanitize_filename original_name in
      match stored with
      | Unopenable => raise BadZipFile
      | Unreadable =>
          let target_path := path_join artist_dir sanitized_name in
          write_file target_path "";;
          raise BadZipFile
      | Stored data =>
          let target_path := path_join artist_dir sanitized_name in
          write_file target_path data;;
          extract_members artist_dir rest
      end
  end.

Definition xlsx_url_of (sheet_id : string) : string :=
  SHEET_PREFIX +:+ sheet_id +:+ "/export?format=xlsx".

Definition zip_url_of (sheet_id : string) : string :=
  SHEET_PREFIX +:+ sheet_id +:+ "/export?format=zip".

Definition download_xlsx (E : env) (sheet_id artist_dir : string) : io unit :=
  let xlsx_url := xlsx_url_of sheet_id in
  let xlsx_path := path_join artist_dir "spreadsheet.xlsx" in
  try_except
    (r ← requests_get E xlsx_url;
     raise_for_status r;;
     write_file xlsx_path (content r))
    (log_if_unauthorized xlsx_url).

Definition download_zip (E : env) (sheet_id artist_dir : string) : io unit :=
  let zip_url := zip_url_of sheet_id in
  let zip_path := path_join artist_dir "spreadsheet.zip" in
  try_except
    (r ← requests_get E zip_url;
     raise_for_status r;;
     write_file zip_path (content r);;
     stored ← gets (fun w => files w !! zip_path);
     members ← lift (match stored with
                     | Some data =>
                         match zip_file E data with
                         | Some members => ok members
                         | None => throw BadZipFile
                         end
                     | None => throw OSError
                     end);
     extract_members artist_dir members)
    (log_if_unauthorized zip_url).

Definition download_exports (E : env) (sheet_id artist_dir : string) : io unit :=
  download_xlsx E sheet_id artist_dir;;
  download_zip E sheet_id artist_dir.

(** ** Catalog Store and the cycle: [run_once] (main.py, lines 177-243) *)

Definition save_csv (data : pydict string) : io unit :=
  modify (set_cache (Some data)).

Definition load_cached_csv : io (pydict string) :=
  gets (fun w =>
    match cache w with
    | None => []
    | Some rows => Dict.of_items rows
    end).

Definition public_url_of (E : env) (artist filename : string) : string :=
  "https://trackers.artistgrid.cx/downloads/" +:+ quote E artist
  +:+ "/" +:+ quote E filename.

(** The loop over [to_update.items()]: downloads, then the files found in
    the directory of the artist. *)
Fixpoint update_all (E : env) (items : pydict string)
    (files_to_archive : list (string * string))
  : io (list (string * string)) :=
  match items with
  | [] => mret files_to_archive
  | (artist, url) :: items' =>
      match extract_sheet_id url with
      | Some sheet_id =>
          let artist_dir := path_join EXPORT_DIR artist in
          download_exports E sheet_id artist_dir;;
          names ← gets (fun w => listdir_files (files w) artist_dir);
          update_all E items'
            (files_to_archive ++
             map (fun filename =>
                    (path_join artist_dir filename,
                     public_url_of E artist filename)) names)
      | None => update_all E items' files_to_archive
      end
  end.

Fixpoint start_threads (tasks : list (string * string)) : io unit :=
  match tasks with
  | [] => mret tt
  | (file_path, public_url) :: tasks' =>
      modify (emit (Spawn file_path public_url));;
      start_threads tasks'
  end.

(** The [try] block of [run_once]: fetch and parse. *)
Definition fetch_remote (E : env) : io (pydict string) :=
  response ← requests_get E REMOTE_CSV_URL;
  raise_for_status response;;
  lift (parse_csv (dict_reader E) (content response)).

Definition run_once (E : env) : io unit :=
  fetched ← try_except (remote_data ← fetch_remote E; mret (Some remote_data))
                       (fun e => mret None);
  match fetched with
  | None => mret tt
  | Some remote_data =>
      cached_data ← load_cached_csv;
      let to_update := to_update remote_data cached_data in
      (match to_update with
       | [] => mret tt
       | _ =>
           files_to_archive ← update_all E to_update [];
           start_threads files_to_archive
       end);;
      save_csv remote_data
  end.

(** ** Browser: the routes of [do_GET] (main.py, lines 253-315)

    The two pages are built by functions that are not modelled here; a
    reply says which page is sent, or what else. *)

(** What the handler asks of the libraries and of the disk. *)
Record server := Server {
  url_path : string -> string;     (* [urllib.parse.urlparse(p).path] *)
  unquote : string -> string;      (* [urllib.parse.unquote] *)
  isfile : string -> bool;         (* [os.path.isfile] *)
  isdir : string -> bool;          (* [os.path.isdir] *)
  read_bytes : string -> string    (* [open(path, "rb").read()] *)
}.

Inductive reply :=
  | ArtistListPage                                (* 200, the list of artists *)
  | PlainText (body : string)                     (* 200, text/plain *)
  | ArtistFilesPage (artist artist_dir : string)  (* 200, the files of an artist *)
  | FileBytes (content_type body : string)        (* 200, the bytes of a file *)
  | Error404 (message : string).                  (* [send_error(404, message)] *)

(** [s.strip("/")] *)
Fixpoint lstrip_slash (s : string) : string :=
  match s with
  | String c s' => if Ascii.eqb c "/" then lstrip_slash s' else s
  | EmptyString => EmptyString
  end.

Fixpoint rstrip_slash (s : string) : string :=
  match s with
  | EmptyString => EmptyString
  | String c s' =>
      match rstrip_slash s' with
      | EmptyString =>
          if Ascii.eqb c "/" then EmptyString else String c EmptyString
      | r => String c r
      end
  end.

Definition strip_slash (s : string) : string := rstrip_slash (lstrip_slash s).

(** [s.startswith(prefix)] *)
Definition starts_with (prefix s : string) : bool :=
  match Re.literal prefix s with
  | Some _ => true
  | None => false
  end.

(** [s.endswith(suffix)] *)
Fixpoint ends_with (suffix s : string) : bool :=
  String.eqb s suffix
  || match s with
     | EmptyString => false
     | String _ s' => ends_with suffix s'
     end.

(** ["/" not in s] *)
Definition no_slash (s : string) : bool :=
  Str.all (fun c => negb (Ascii.eqb c "/")) s.

(** The Content-Type of a served file (lines 301-306). *)
Definition content_type_of (decoded_path : string) : string :=
  if ends_with ".xlsx" decoded_path
  then "application/vnd.openxmlformats-officedocument.spreadsheetml.sheet"
  else if ends_with ".html" decoded_path || ends_with ".htm" decoded_path
  then "text/html; charset=utf-8"
  else "application/octet-stream".

Definition do_GET (S : server) (request_path : string) : reply :=
  let raw_path := strip_slash (url_path S request_path) in
  let path := unquote S raw_path in
  if String.eqb path ""
     || (String.eqb path "index" || String.eqb path "index.html")
  then ArtistListPage
  else if String.eqb path "down" then
    let down_file := path_join "host" "down.txt" in
    if isfile S down_file then PlainText (read_bytes S down_file)
    else PlainText "No 401 errors logged.
"
  else if negb (String.eqb path "") && no_slash path then
    let artist := path in
    let artist_dir := path_join EXPORT_DIR artist in
    if isdir S artist_dir then ArtistFilesPage artist artist_dir
    else Error404 "Artist not found"
  else if starts_with "downloads/" path then
    let decoded_path := path_join "." (unquote S path) in
    if isfile S decoded_path
    then FileBytes (content_type_of decoded_path) (read_bytes S decoded_path)
    else Error404 "File not found"
  else Error404 "Not found".

(** ** Notions used to state the properties *)

(** The test of the Change Detector, on an item. *)
Definition is_changed (cached : pydict string) (kv : string * string) : bool :=
  changed cached (fst kv) (snd kv).

(** An ASCII letter, an ASCII digit or the dollar sign: the characters of
    a name that reach its normalized form. *)
Definition is_name_char (c : ascii) : bool :=
  Str.in_range "a" "z" c || Str.in_range "A" "Z" c || Str.in_range "0" "9" c
  || Ascii.eqb c "$".

(** What the amended contract of the Catalog Fetcher says of one row: the
    row is selected, its name normalizes to the non-empty [artist], and its
    URL is accepted with canonical form [url]. *)
Definition includes (r : row) (artist url : string) : Prop :=
  exists best name raw,
    Dict.get "Best" r = Some (PStr best)
    /\ Str.lower (Str.strip best) = "yes"
    /\ Dict.get "Artist Name" r = Some (PStr name)
    /\ normalize_artist_name name = artist
    /\ artist <> ""
    /\ Dict.get "URL" r = Some (PStr raw)
    /\ clean_url raw = Some url.

(** What an entry of a fetched catalog looks like: a non-empty name of
    [a-z0-9], and a canonical URL from which the identifier is read back. *)
Definition catalog_entry (kv : string * string) : Prop :=
  fst kv <> "" /\ Str.all is_lower_alnum (fst kv) = true
  /\ exists id,
       String.length id = 44%nat /\ Str.all is_id_char id = true
       /\ snd kv = SHEET_PREFIX +:+ id +:+ "/"
       /\ extract_sheet_id (snd kv) = Some id.



(** What the [try] block of [run_once] ends with: the fetched catalog, or
    the exception. *)
Definition fetched (E : env) : result (pydict string) :=
  match http_get E REMOTE_CSV_URL with
  | None => throw RequestException
  | Some r =>
      if (400 <=? status_code r) && (status_code r <? 600)
      then throw (HTTPError (status_code r))
      else parse_csv (dict_reader E) (content r)
  end.

(** The catalog that [load_cached_csv] finds in a world. *)
Definition cached_catalog (w : world) : pydict string :=
  match cache w with
  | None => []
  | Some rows => Dict.of_items rows
  end.

(** The requests that the download of one entry makes. *)
Definition download_gets (item : string * string) : list event :=
  match extract_sheet_id (snd item) with
  | Some sheet_id => [Get (xlsx_url_of sheet_id); Get (zip_url_of sheet_id)]
  | None => []
  end.

Definition spawn_event (task : string * string) : event :=
  Spawn (fst task) (snd task).

(** Every file of [w] is still a file of [w']. *)
Definition keeps_files (w w' : world) : Prop :=
  forall p, is_Some (files w !! p) -> is_Some (files w' !! p).

(** A thread of [run_once] for the file [filename] of [artist]. *)
Definition task_of (E : env) (artist filename : string) : string * string :=
  (path_join (path_join EXPORT_DIR artist) filename,
   public_url_of E artist filename).

(** The components of the world other than the files are the same. *)
Definition same_but_files (w w' : world) : Prop :=
  cache w' = cache w /\ down_log w' = down_log w
  /\ now w' = now w /\ trace w' = trace w.

(** An exception other than the [HTTPError] of [raise_for_status]. *)
Definition not_http_error (e : exn) : Prop :=
  match e with
  | HTTPError _ => False
  | _ => True
  end.

Definition no_line_break (s : string) : bool :=
  Str.all (fun c => negb (is_line_break c)) s.

Definition no_colon (s : string) : bool :=
  Str.all (fun c => negb (Ascii.eqb c ":")) s.

(** An item that [save_metadata] writes on a line of its own and that
    [load_metadata] reads back from that line. *)
Definition line_safe (kv : string * pyval) : Prop :=
  no_colon (fst kv) = true /\ no_line_break (fst kv) = true
  /\ no_line_break (format_pyval (snd kv)) = true.

(** [f"{value}"], as the string the next [load_metadata] finds. *)
Definition as_loaded (kv : string * pyval) : string * pyval :=
  (fst kv, PStr (format_pyval (snd kv))).

Definition is_hex_digit (c : ascii) : bool :=
  Str.in_range "0" "9" c || Str.in_range "a" "f" c.

(** [hexdigest()] returns hexadecimal digits. *)
Definition hex_digest (E : env) : Prop :=
  forall data, Str.all is_hex_digit (sha256_hex E data) = true.

(** The request for [url] is answered with status 401. *)
Definition unauthorized (E : env) (url : string) : bool :=
  match http_get E url with
  | Some r => status_code r =? 401
  | None => false
  end.

(** The ways in which the [try] block of [run_once] raises. *)
Inductive fetch_failure (E : env) : Prop :=
  | Transport :
      http_get E REMOTE_CSV_URL = None -> fetch_failure E
  | ErrorStatus (r : response) :
      http_get E REMOTE_CSV_URL = Some r ->
      400 <= status_code r < 600 -> fetch_failure E
  | ParseRaises (r : response) (e : exn) :
      http_get E REMOTE_CSV_URL = Some r ->
      parse_csv (dict_reader E) (content r) = throw e -> fetch_failure E.

(** ** Concrete inputs used by the examples below *)

Definition sample_id : string :=
  "1AbCdEfGhIjKlMnOpQrStUvWxYz0123456789-_abcde".

Definition sample_url : string :=
  "https://docs.google.com/spreadsheets/d/1AbCdEfGhIjKlMnOpQrStUvWxYz0123456789-_abcde/edit#gid=0".

Definition sample_canonical : string :=
  "https://docs.google.com/spreadsheets/d/1AbCdEfGhIjKlMnOpQrStUvWxYz0123456789-_abcde/".

(** 45 characters of the identifier class. *)
Definition long_segment : string :=
  "aaaaaaaaaaaaaaaaaaaaaaaaaaaaaaaaaaaaaaaaaaaaa".

Definition remote_two : pydict string := [("alpha", "u1"); ("beta", "u2")].
Definition cached_one : pydict string := [("alpha", "u1")].

(** A row that is selected and has a valid URL, under a name made of
    punctuation only. *)
Definition punct_row : row :=
  [("Best", PStr "Yes"); ("Artist Name", PStr "!!!"); ("URL", PStr sample_url)].

Definition smith_row : row :=
  [("Best", PStr " yes "); ("Artist Name", PStr "J$ Smith");
   ("URL", PStr sample_url)].

Definition sample_reader (text : string) : list row * option exn :=
  ([smith_row; punct_row], None).

(** A file, its sidecar dated 3 November 2026, and that day. *)
Definition day_3_nov : date := Date 2026 11 3.

Definition sample_env (answer : result string) (status : Z) : env :=
  Env (fun url => Some (Response status "payload"))
      sample_reader
      (fun data => Some [("folder/My Song (v2).mp3", Stored "song")])
      (fun public_url => answer)
      (fun data => "c0ffee")
      (fun instant => Date 2026 11 (3 + instant / 86400))
      3
      (fun s => s).

Definition archived_today : world :=
  World (<["downloads/a/song.mp3" := "song"]>
         (<["downloads/a/song.mp3.meta" :=
              "sha256:0ddba11
lastarchive:2026-11-03
"]> ∅))
        None [] 0 [].

Definition archived_before : world :=
  World (<["downloads/a/song.mp3" := "song"]>
         (<["downloads/a/song.mp3.meta" :=
              "note:keep
lastarchive:2026-11-02
"]> ∅))
        None [] 0 [].

Definition failing_env : env := sample_env (throw WaybackError) 200.

(** The catalog source answers 304 with an empty body, from which the
    reader yields no row. *)
Definition not_modified_env : env :=
  Env (fun url => Some (Response 304 ""))
      (fun text => ([], None))
      (fun data => None)
      (fun public_url => throw WaybackError)
      (fun data => "c0ffee")
      (fun instant => day_3_nov)
      0
      (fun s => s).

Definition cached_world : world :=
  World ∅ (Some [("alpha", sample_canonical)]) [] 0 [].

(** Both export requests of [sample_id] answered with status 401. *)
Definition unauthorized_env : env := sample_env (ok "archived") 401.

Definition empty_world : world := World ∅ None [] 0 [].

(** A selected row that is too short: its URL cell is [None]. *)
Definition short_row : row :=
  [("Best", PStr "yes"); ("Artist Name", PStr "Cut"); ("URL", PNone)].

Definition short_reader (text : string) : list row * option exn :=
  ([smith_row; short_row; punct_row], None).

Definition sample_record : pydict pyval :=
  [("sha256", PStr "c0ffee"); ("lastarchive", PStr "2026-11-03");
   ("origin", PNone)].

(** Three members: the second cannot be opened. *)
Definition broken_members : list (string * zip_member) :=
  [("a/First Track.mp3", Stored "one"); ("a/second.mp3", Unopenable);
   ("a/third.mp3", Stored "three")].

(** A disk on which an earlier cycle left two files for "jssmith". *)
Definition stale_world : world :=
  World (<["downloads/jssmith/notes.txt" := "old"]>
         (<["downloads/jssmith/notes.txt.meta" :=
              "sha256:0ddba11
lastarchive:2026-11-02
"]> ∅))
        None [] 0 [].

(** * Properties *)

(** ** Strings *)

#[local] Arguments String.append !_ _ / : simpl nomatch.

Lemma str_app_assoc (s t u : string) : (s +:+ t) +:+ u = s +:+ t +:+ u.
Proof. induction s as [|c s IH]; [reflexivity|]. simpl. by rewrite IH. Qed.

Lemma str_length_app (s t : string) :
  String.length (s +:+ t) = (String.length s + String.length t)%nat.
Proof. induction s as [|c s IH]; [reflexivity|]. simpl. by rewrite IH. Qed.

Lemma str_all_app P (s t : string) :
  Str.all P (s +:+ t) = Str.all P s && Str.all P t.
Proof.
  induction s as [|c s IH]; [reflexivity|].
  simpl. rewrite IH. by rewrite andb_assoc.
Qed.

Lemma str_filter_all P (s : string) : Str.all P (Str.filter P s) = true.
Proof.
  induction s as [|c s IH]; [reflexivity|].
  simpl. destruct (P c) eqn:E; simpl; [by rewrite E|done].
Qed.

(** Two ways of cutting the same string: the shorter head is a prefix of
    the longer one. *)
Lemma str_app_eq_app (a b c d : string) :
  a +:+ b = c +:+ d ->
  (String.length c < String.length a)%nat ->
  exists m, m <> "" /\ a = c +:+ m /\ d = m +:+ b.
Proof.
  revert c. induction a as [|x a IH]; intros c H Hlen; [simpl in Hlen; lia|].
  destruct c as [|y c].
  - exists (String x a). simpl in H. by subst.
  - simpl in H. injection H as -> H. simpl in Hlen.
    destruct (IH c H ltac:(lia)) as (m & Hm & -> & ->).
    exists m. by simpl.
Qed.

(** ** Regular expressions *)

Lemma literal_app (lit r : string) : Re.literal lit (lit +:+ r) = Some r.
Proof.
  induction lit as [|c lit IH]; [by destruct r|].
  simpl. by rewrite Ascii.eqb_refl.
Qed.

Lemma literal_inv (lit s r : string) :
  Re.literal lit s = Some r -> s = lit +:+ r.
Proof.
  revert s. induction lit as [|c lit IH]; intros s H.
  - destruct s; simpl in H; by simplify_eq.
  - destruct s as [|d s]; simpl in H; [done|].
    destruct (Ascii.eqb c d) eqn:E; [|done].
    apply Ascii.eqb_eq in E as ->. simpl. f_equal. by apply IH.
Qed.

Lemma repeat_app cls (g r : string) :
  Str.all cls g = true ->
  Re.repeat cls (String.length g) (g +:+ r) = Some (g, r).
Proof.
  induction g as [|c g IH]; simpl; [by destruct r|].
  intros [Hc Hg]%andb_true_iff. by rewrite Hc, IH.
Qed.

Lemma repeat_inv cls n (s g r : string) :
  Re.repeat cls n s = Some (g, r) ->
  s = g +:+ r /\ String.length g = n /\ Str.all cls g = true.
Proof.
  revert s g. induction n as [|n IH]; intros s g H.
  - destruct s; simpl in H; by simplify_eq.
  - destruct s as [|c s]; simpl in H; [done|].
    destruct (cls c) eqn:Hc; [|done].
    destruct (Re.repeat cls n s) as [[g' r']|] eqn:Hrep; [|done].
    injection H as <- <-. destruct (IH _ _ Hrep) as (-> & <- & Hall).
    simpl. by rewrite Hc, Hall.
Qed.

(** A match at the head of [s] is a way of writing [s] as the literal, a
    group of the right length and class, the second literal and a rest. *)
Lemma match_here_iff (p : Re.pattern) (s g : string) :
  Re.match_here p s = Some g <->
  exists r, s = Re.before p +:+ g +:+ Re.after p +:+ r
            /\ String.length g = Re.count p
            /\ Str.all (Re.class p) g = true.
Proof.
  unfold Re.match_here. split.
  - destruct (Re.literal (Re.before p) s) as [r1|] eqn:H1; [|done].
    destruct (Re.repeat _ _ r1) as [[g' r2]|] eqn:H2; [|done].
    destruct (Re.literal (Re.after p) r2) as [r3|] eqn:H3; [|done].
    intros [= ->]. exists r3.
    apply literal_inv in H1 as ->. apply repeat_inv in H2 as (-> & ? & ?).
    apply literal_inv in H3 as ->. done.
  - intros (r & -> & Hlen & Hall).
    rewrite literal_app, <- Hlen, repeat_app, literal_app; done.
Qed.

Lemma search_some_inv (p : Re.pattern) (s g : string) :
  Re.search p s = Some g ->
  exists pre suf,
    s = pre +:+ suf /\ Re.match_here p suf = Some g
    /\ forall pre1 pre2, pre = pre1 +:+ pre2 -> pre2 <> "" ->
                         Re.match_here p (pre2 +:+ suf) = None.
Proof.
  induction s as [|c s IH]; simpl.
  - destruct (Re.match_here p "") eqn:H0; [|done].
    intros [= ->]. exists "", "". repeat split; [done|].
    intros [|] [|]; done.
  - destruct (Re.match_here p (String c s)) eqn:H0.
    + intros [= ->]. exists "", (String c s). repeat split; [done|].
      intros [|] [|]; done.
    + intros (pre & suf & -> & Hm & Hleft)%IH.
      exists (String c pre), suf. repeat split; [done|].
      intros [|x pre1] pre2 Heq Hne; simpl in Heq.
      * by subst pre2.
      * injection Heq as -> ->. by apply (Hleft pre1 pre2).
Qed.

Lemma search_leftmost (p : Re.pattern) (pre suf g : string) :
  Re.match_here p suf = Some g ->
  (forall pre1 pre2, pre = pre1 +:+ pre2 -> pre2 <> "" ->
                     Re.match_here p (pre2 +:+ suf) = None) ->
  Re.search p (pre +:+ suf) = Some g.
Proof.
  intros Hm. induction pre as [|c pre IH]; intros Hleft.
  - simpl. destruct suf; simpl; by rewrite Hm.
  - pose proof (Hleft "" (String c pre) eq_refl ltac:(done)) as H0.
    simpl in *. rewrite H0.
    apply IH. intros pre1 pre2 -> Hne.
    by apply (Hleft (String c pre1) pre2).
Qed.

Lemma search_none_iff (p : Re.pattern) (s : string) :
  Re.search p s = None <->
  forall pre suf, s = pre +:+ suf -> Re.match_here p suf = None.
Proof.
  induction s as [|c s IH]; simpl.
  - destruct (Re.match_here p "") eqn:H0.
    + split; [done|]. intros H. by rewrite (H "" "") in H0.
    + split; [|done]. intros _ [|] [|]; done.
  - destruct (Re.match_here p (String c s)) eqn:H0.
    + split; [done|]. intros H. by rewrite (H "" (String c s)) in H0.
    + rewrite IH. split.
      * intros H [|x pre] suf Heq; simpl in Heq; [by subst|].
        injection Heq as -> ->. by apply (H pre suf).
      * intros H pre suf ->. by apply (H (String c pre) suf).
Qed.

(** [re.search] finds the group [g] exactly when the string can be cut as
    [pre ++ before ++ g ++ after ++ rest] and no such cut starts earlier. *)
Lemma search_some_iff (p : Re.pattern) (s g : string) :
  Re.search p s = Some g <->
  exists pre rest,
    s = pre +:+ Re.before p +:+ g +:+ Re.after p +:+ rest
    /\ String.length g = Re.count p
    /\ Str.all (Re.class p) g = true
    /\ forall pre' g' rest',
         s = pre' +:+ Re.before p +:+ g' +:+ Re.after p +:+ rest' ->
         String.length g' = Re.count p ->
         Str.all (Re.class p) g' = true ->
         (String.length pre <= String.length pre')%nat.
Proof.
  split.
  - intros (pre & suf & -> & Hm & Hleft)%search_some_inv.
    pose proof Hm as (rest & -> & Hlen & Hall)%match_here_iff.
    exists pre, rest. repeat split; [done..|].
    intros pre' g' rest' Heq Hlen' Hall'.
    destruct (Nat.le_gt_cases (String.length pre) (String.length pre'))
      as [|Hlt]; [done|exfalso].
    destruct (str_app_eq_app _ _ _ _ Heq Hlt) as (m & Hne & -> & Hsuf).
    specialize (Hleft pre' m eq_refl Hne).
    rewrite <- Hsuf in Hleft.
    assert (Re.match_here p (Re.before p +:+ g' +:+ Re.after p +:+ rest')
            = Some g') as Hm' by (apply match_here_iff; eauto).
    congruence.
  - intros (pre & rest & -> & Hlen & Hall & Hleft).
    apply search_leftmost; [apply match_here_iff; eauto|].
    intros pre1 pre2 -> Hne.
    destruct (Re.match_here p _) as [g'|] eqn:Hm; [exfalso|done].
    apply match_here_iff in Hm as (rest' & Heq & Hlen' & Hall').
    specialize (Hleft pre1 g' rest').
    rewrite str_app_assoc, Heq in Hleft.
    specialize (Hleft eq_refl Hlen' Hall').
    rewrite str_length_app in Hleft.
    destruct pre2; [done|]. simpl in Hleft. lia.
Qed.

Lemma search_here (p : Re.pattern) (s g : string) :
  Re.match_here p s = Some g -> Re.search p s = Some g.
Proof. intros H. destruct s; simpl; by rewrite H. Qed.

Lemma search_skip (p : Re.pattern) (c : ascii) (s : string) :
  Re.match_here p (String c s) = None ->
  Re.search p (String c s) = Re.search p s.
Proof. intros H. simpl. by rewrite H. Qed.

(** ** URL cleaning and identifier extraction *)

(** C2 (amended).  [clean_url] accepts a URL exactly when the URL contains
    the sheet prefix followed by at least 44 characters of [a-zA-Z0-9-_]:
    the identifier is made of the 44 characters that follow the leftmost
    such prefix, whatever comes after them, and the canonical URL is
    prefix + identifier + "/".  Every other URL is rejected. *)
Theorem clean_url_accepts_iff (url c : string) :
  clean_url url = Some c <->
  exists pre id post,
    url = pre +:+ SHEET_PREFIX +:+ id +:+ post
    /\ String.length id = 44%nat
    /\ Str.all is_id_char id = true
    /\ c = SHEET_PREFIX +:+ id +:+ "/"
    /\ forall pre' id' post',
         url = pre' +:+ SHEET_PREFIX +:+ id' +:+ post' ->
         String.length id' = 44%nat ->
         Str.all is_id_char id' = true ->
         (String.length pre <= String.length pre')%nat.
Proof.
  unfold clean_url. split.
  - destruct (Re.search clean_url_re url) as [g|] eqn:Hs; [|done].
    intros [= <-].
    apply search_some_iff in Hs as (pre & rest & Heq & Hlen & Hall & Hleft).
    exists pre, g, rest. repeat split; [done..|].
    intros pre' id' post'. apply Hleft.
  - intros (pre & id & post & Heq & Hlen & Hall & -> & Hleft).
    assert (Re.search clean_url_re url = Some id) as ->; [|done].
    apply search_some_iff. exists pre, post. repeat split; [done..|].
    intros pre' id' post'. apply Hleft.
Qed.

(** C2, as stated, fails: an identifier segment of 45 characters is not
    rejected; its first 44 characters are taken as the identifier. *)
Lemma clean_url_accepts_long_segment :
  String.length long_segment = 45%nat
  /\ clean_url (SHEET_PREFIX +:+ long_segment +:+ "/edit")
     = Some (SHEET_PREFIX +:+ "aaaaaaaaaaaaaaaaaaaaaaaaaaaaaaaaaaaaaaaaaaaa"
             +:+ "/").
Proof. split; reflexivity. Qed.

Lemma extract_sheet_id_canonical (id : string) :
  String.length id = 44%nat ->
  Str.all is_id_char id = true ->
  extract_sheet_id (SHEET_PREFIX +:+ id +:+ "/") = Some id.
Proof.
  intros Hlen Hall. unfold extract_sheet_id, SHEET_PREFIX.
  cbn [String.append].
  do 36 (rewrite search_skip by reflexivity).
  apply search_here, match_here_iff. by exists "".
Qed.

(** C10.  What [clean_url] returns is the prefix, the identifier it found
    and a slash, and [extract_sheet_id] gives that identifier back. *)
Theorem extract_sheet_id_clean_url (url c : string) :
  clean_url url = Some c ->
  exists id,
    Re.search clean_url_re url = Some id
    /\ c = SHEET_PREFIX +:+ id +:+ "/"
    /\ extract_sheet_id c = Some id.
Proof.
  unfold clean_url.
  destruct (Re.search clean_url_re url) as [g|] eqn:Hs; [|done].
  intros [= <-]. exists g. repeat split.
  apply search_some_iff in Hs as (pre & rest & _ & Hlen & Hall & _).
  by apply extract_sheet_id_canonical.
Qed.

Lemma extract_sheet_id_clean_url_witness :
  clean_url sample_url = Some sample_canonical
  /\ exists id,
       Re.search clean_url_re sample_url = Some id
       /\ sample_canonical = SHEET_PREFIX +:+ id +:+ "/"
       /\ extract_sheet_id sample_canonical = Some id.
Proof.
  split; [reflexivity|].
  apply (extract_sheet_id_clean_url sample_url sample_canonical).
  reflexivity.
Defined.

(** ** Dictionaries *)

Section DictFacts.
Context {V : Type}.
Implicit Types (d : list (string * V)) (k : string) (v : V).

Lemma dict_get_set_eq d k v : Dict.get k (Dict.set k v d) = Some v.
Proof.
  induction d as [|[k' v'] d IH]; simpl.
  - by rewrite String.eqb_refl.
  - destruct (String.eqb_spec k k') as [->|Hne]; simpl.
    + by rewrite String.eqb_refl.
    + by destruct (String.eqb_spec k k').
Qed.

Lemma dict_get_set_ne d k k' v :
  k <> k' -> Dict.get k' (Dict.set k v d) = Dict.get k' d.
Proof.
  intros Hne. induction d as [|[k0 v0] d IH]; simpl.
  - by destruct (String.eqb_spec k' k) as [->|].
  - destruct (String.eqb_spec k k0) as [->|]; simpl.
    + by destruct (String.eqb_spec k' k0) as [->|].
    + by rewrite IH.
Qed.

Lemma dict_get_set d k k' v :
  Dict.get k' (Dict.set k v d)
  = if String.eqb k' k then Some v else Dict.get k' d.
Proof.
  destruct (String.eqb_spec k' k) as [->|Hne].
  - apply dict_get_set_eq.
  - by apply dict_get_set_ne.
Qed.

(** The finite map of a dictionary answers as the dictionary does. *)
Lemma dict_to_map_lookup d k : Dict.to_map d !! k = Dict.get k d.
Proof.
  unfold Dict.to_map. induction d as [|[k' v'] d IH]; simpl; [done|].
  destruct (String.eqb_spec k k') as [->|Hne].
  - by rewrite lookup_insert_eq.
  - by rewrite lookup_insert_ne.
Qed.

Lemma dict_to_map_set d k v :
  Dict.to_map (Dict.set k v d) = <[k := v]> (Dict.to_map d).
Proof.
  apply map_eq. intros k'. rewrite dict_to_map_lookup, dict_get_set.
  destruct (String.eqb_spec k' k) as [->|Hne].
  - by rewrite lookup_insert_eq.
  - by rewrite lookup_insert_ne, dict_to_map_lookup.
Qed.

Lemma dict_get_Some_elem d k v : Dict.get k d = Some v -> (k, v) ∈ d.
Proof.
  induction d as [|[k' v'] d IH]; simpl; [done|].
  destruct (String.eqb_spec k k') as [->|Hne].
  - intros [= ->]. left.
  - intros H. right. by apply IH.
Qed.

Lemma dict_elem_get d k v : Dict.wf d -> (k, v) ∈ d -> Dict.get k d = Some v.
Proof.
  unfold Dict.wf. induction d as [|[k' v'] d IH]; simpl.
  - by intros _ ?%elem_of_nil.
  - intros [Hnot Hnd]%NoDup_cons [Heq|Hin]%elem_of_cons.
    + injection Heq as -> ->. by rewrite String.eqb_refl.
    + destruct (String.eqb_spec k k') as [->|Hne]; [|by apply IH].
      exfalso. apply Hnot. apply list_elem_of_fmap. by exists (k', v).
Qed.

(** Storing under a new key appends. *)
Lemma dict_set_fresh d k v : k ∉ d.*1 -> Dict.set k v d = d ++ [(k, v)].
Proof.
  induction d as [|[k' v'] d IH]; simpl; [done|].
  intros [Hne Hnot]%not_elem_of_cons.
  destruct (String.eqb_spec k k'); [done|]. by rewrite IH.
Qed.

End DictFacts.

(** ** Change Detector *)

Lemma changed_false_iff (cached : list (string * string)) (k v : string) :
  changed cached k v = false <-> Dict.get k cached = Some v.
Proof.
  unfold changed. destruct (Dict.get k cached) as [u|]; [|done].
  destruct (String.eqb_spec u v) as [->|Hne]; simpl; [done|].
  split; [done|]. by intros [= ?].
Qed.

(** On a dictionary the comprehension is a filter: the kept items stay
    in the order of [remote]. *)
Lemma to_update_fold (cached remote acc : list (string * string)) :
  NoDup (remote.*1) ->
  (forall k, k ∈ remote.*1 -> k ∉ acc.*1) ->
  fold_left
    (fun acc kv => if changed cached (fst kv) (snd kv)
                   then Dict.set (fst kv) (snd kv) acc else acc)
    remote acc
  = acc ++ List.filter (is_changed cached) remote.
Proof.
  revert acc. induction remote as [|[k v] remote IH]; intros acc Hnd Hfresh.
  - simpl. by rewrite app_nil_r.
  - simpl in *. apply NoDup_cons in Hnd as [Hk Hnd].
    unfold is_changed at 1. simpl.
    destruct (changed cached k v).
    + rewrite dict_set_fresh by (apply Hfresh; left).
      rewrite IH; [by rewrite <- app_assoc|done|].
      intros k' Hk'. rewrite fmap_app, elem_of_app. simpl.
      intros [Hin|Hin%list_elem_of_singleton].
      * by apply (Hfresh k'); [right|].
      * by subst.
    + apply IH; [done|]. intros k' Hk'. apply Hfresh. by right.
Qed.

Lemma to_update_filter (remote cached : list (string * string)) :
  Dict.wf remote ->
  to_update remote cached = List.filter (is_changed cached) remote.
Proof.
  intros Hwf. unfold to_update. rewrite to_update_fold; [done..|].
  intros k _. apply not_elem_of_nil.
Qed.

Lemma filter_nil_iff {A} (f : A -> bool) (l : list A) :
  List.filter f l = [] <-> forall x, x ∈ l -> f x = false.
Proof.
  induction l as [|a l IH]; simpl.
  - split; [by intros _ x ?%elem_of_nil|done].
  - destruct (f a) eqn:Ha.
    + split; [done|]. intros H. rewrite H in Ha; [done|left].
    + rewrite IH. split.
      * intros H x [->|Hin]%elem_of_cons; auto.
      * intros H x Hin. apply H. by right.
Qed.

Lemma filter_single (f : string * string -> bool) (l : list (string * string))
    (kv : string * string) :
  NoDup (l.*1) -> kv ∈ l ->
  (forall x, x ∈ l -> f x = true <-> x = kv) ->
  List.filter f l = [kv].
Proof.
  induction l as [|a l IH]; simpl; [by intros _ ?%elem_of_nil|].
  intros [Ha Hnd]%NoDup_cons Hin Hf.
  destruct (f a) eqn:Hfa.
  - apply Hf in Hfa as ->; [|left]. f_equal.
    apply filter_nil_iff. intros x Hx.
    destruct (f x) eqn:Hfx; [|done].
    apply Hf in Hfx as ->; [|by right].
    exfalso. apply Ha. apply list_elem_of_fmap. by exists kv.
  - apply elem_of_cons in Hin as [->|Hin].
    + assert (f a = true) by (apply Hf; [left|done]). congruence.
    + apply IH; [done..|]. intros x Hx. apply Hf. by right.
Qed.

(** X9.  An entry is in the change set exactly when the remote catalog
    has it and the cached one lacks the name or holds another URL for
    it. *)
Lemma to_update_lookup (remote cached : list (string * string)) (k v : string) :
  Dict.wf remote ->
  Dict.get k (to_update remote cached) = Some v <->
  Dict.get k remote = Some v /\ Dict.get k cached <> Some v.
Proof.
  intros Hwf. rewrite to_update_filter by done.
  assert (Dict.wf (List.filter (is_changed cached) remote)) as Hwf'.
  { unfold Dict.wf in *. clear -Hwf.
    induction remote as [|[a u] remote IH]; simpl; [constructor|].
    apply NoDup_cons in Hwf as [Ha Hnd].
    destruct (is_changed cached (a, u)); simpl; [|by apply IH].
    apply NoDup_cons. split; [|by apply IH].
    intros ([a' u'] & -> & Hin%list_elem_of_In%filter_In)%list_elem_of_fmap.
    apply Ha. apply list_elem_of_fmap. exists (a', u').
    split; [done|]. apply list_elem_of_In. tauto. }
  split.
  - intros Hin%dict_get_Some_elem%list_elem_of_In%filter_In.
    destruct Hin as [Hin%list_elem_of_In Hch]. split.
    + by apply dict_elem_get.
    + intros Hc%changed_false_iff. unfold is_changed in Hch. simpl in Hch.
      congruence.
  - intros [Hr Hc]. apply dict_elem_get; [done|].
    apply list_elem_of_In, filter_In. split.
    + by apply list_elem_of_In, dict_get_Some_elem.
    + unfold is_changed. simpl. destruct (changed cached k v) eqn:E; [done|].
      by apply changed_false_iff in E.
Qed.

(** C1 (amended).  The change set is empty exactly when every entry of the
    remote catalog is in the cached one with the same URL (the cached
    catalog may hold more names); it is empty in particular when the two
    are equal as mappings; and when the remote catalog is the cached one
    plus one name the cached one lacks, the change set is that entry. *)
Theorem to_update_empty_iff (remote cached : list (string * string)) :
  Dict.wf remote ->
  (to_update remote cached = [] <->
   Dict.to_map remote ⊆ Dict.to_map cached)
  /\ (Dict.to_map remote = Dict.to_map cached -> to_update remote cached = [])
  /\ (forall k v,
        Dict.get k cached = None ->
        Dict.to_map remote = <[k := v]> (Dict.to_map cached) ->
        to_update remote cached = [(k, v)]).
Proof.
  intros Hwf.
  assert (to_update remote cached = [] <->
          Dict.to_map remote ⊆ Dict.to_map cached) as Hempty.
  { rewrite to_update_filter, filter_nil_iff, map_subseteq_spec by done.
    split.
    - intros H k v. rewrite !dict_to_map_lookup.
      intros Hin%dict_get_Some_elem. by apply changed_false_iff, (H (k, v)).
    - intros H [k v] Hin. apply changed_false_iff.
      rewrite <- dict_to_map_lookup. apply H.
      rewrite dict_to_map_lookup. by apply dict_elem_get. }
  split; [done|]. split.
  - intros Heq. apply Hempty. by rewrite Heq.
  - intros k v Hk Heq. rewrite to_update_filter by done.
    assert (forall k' v', Dict.get k' remote = Some v' <->
              (k' = k /\ v' = v) \/ (k' <> k /\ Dict.get k' cached = Some v'))
      as Hrem.
    { intros k' v'. rewrite <- !dict_to_map_lookup, Heq.
      destruct (decide (k = k')) as [->|Hne].
      - rewrite lookup_insert_eq. split; [intros [= ->]; by left|].
        intros [[_ ->]|[? _]]; done.
      - rewrite lookup_insert_ne by done. split; [intros ?; by right|].
        intros [[-> _]|[_ ?]]; done. }
    apply filter_single; [done|..].
    + apply dict_get_Some_elem, Hrem. by left.
    + intros [k' v'] Hin. unfold is_changed. simpl.
      apply (dict_elem_get _ _ _ Hwf), Hrem in Hin.
      destruct Hin as [[-> ->]|[Hne Hc]].
      * unfold changed. by rewrite Hk.
      * apply changed_false_iff in Hc. rewrite Hc.
        split; [done|]. by intros [= -> _].
Qed.

Lemma to_update_empty_iff_witness :
  Dict.wf remote_two
  /\ (to_update remote_two cached_one = [] <->
      Dict.to_map remote_two ⊆ Dict.to_map cached_one)
  /\ (Dict.to_map remote_two = Dict.to_map cached_one ->
      to_update remote_two cached_one = [])
  /\ (forall k v,
        Dict.get k cached_one = None ->
        Dict.to_map remote_two = <[k := v]> (Dict.to_map cached_one) ->
        to_update remote_two cached_one = [(k, v)]).
Proof.
  assert (Dict.wf remote_two) as Hwf.
  { unfold Dict.wf. simpl. apply NoDup_cons. split.
    - intros [=]%list_elem_of_singleton.
    - apply NoDup_singleton. }
  split; [exact Hwf|].
  apply (to_update_empty_iff remote_two cached_one Hwf).
Defined.

(** C1, as stated, fails: a name that is only in the cached catalog makes
    the two mappings differ and leaves the change set empty. *)
Lemma to_update_empty_not_equal :
  to_update cached_one remote_two = []
  /\ Dict.to_map cached_one <> Dict.to_map remote_two.
Proof.
  split; [reflexivity|].
  intros H.
  assert (Dict.to_map cached_one !! "beta" = Dict.to_map remote_two !! "beta")
    as Hb by (by rewrite H).
  rewrite !dict_to_map_lookup in Hb. discriminate Hb.
Qed.

(** ** Catalog Fetcher *)

Lemma includes_fun (r : list (string * pyval)) (a u a' u' : string) :
  includes r a u -> includes r a' u' -> a = a' /\ u = u'.
Proof.
  intros (b & n & raw & _ & _ & Hn & <- & _ & Hu & Hc)
         (b' & n' & raw' & _ & _ & Hn' & <- & _ & Hu' & Hc').
  rewrite Hn in Hn'. injection Hn' as <-.
  rewrite Hu in Hu'. injection Hu' as <-.
  rewrite Hc in Hc'. by injection Hc' as <-.
Qed.

Lemma parse_row_includes (acc : list (string * string))
    (r : list (string * pyval)) (a u : string) :
  includes r a u -> parse_row acc r = ok (Dict.set a u acc).
Proof.
  intros (b & n & raw & Hb & Hyes & Hn & <- & Hne & Hu & Hc).
  unfold parse_row, best_of, artist_of, url_of.
  rewrite Hb, Hn, Hu. simpl. rewrite Hyes, Hc. simpl.
  by destruct (String.eqb_spec (normalize_artist_name n) "").
Qed.

(** One turn of the loop either stores the entry the row stands for, or
    leaves the mapping as it is. *)
Lemma parse_row_inv (acc acc' : list (string * string))
    (r : list (string * pyval)) :
  parse_row acc r = ok acc' ->
  (exists a u, includes r a u /\ acc' = Dict.set a u acc)
  \/ ((forall a u, ~ includes r a u) /\ acc' = acc).
Proof.
  unfold parse_row, best_of, artist_of, url_of, includes.
  destruct (Dict.get "Best" r) as [[best|]|] eqn:Hb; simpl; [..|done|].
  - destruct (String.eqb_spec (Str.lower (Str.strip best)) "yes")
      as [Hyes|Hno]; simpl.
    + destruct (Dict.get "Artist Name" r) as [[name|]|]; simpl; [|done..].
      destruct (Dict.get "URL" r) as [[raw|]|]; simpl; [|done..].
      destruct (clean_url raw) as [c|] eqn:Hc.
      * destruct (String.eqb_spec (normalize_artist_name name) "")
          as [He|Hne]; simpl; intros [= <-].
        -- right. split; [|done].
           intros a u (? & ? & ? & _ & _ & [= <-] & <- & ? & _). done.
        -- left. exists (normalize_artist_name name), c.
           split; [|done]. by exists best, name, raw.
      * intros [= <-]. right. split; [|done].
        intros a u (? & ? & ? & _ & _ & _ & _ & _ & [= <-] & ?). congruence.
    + intros [= <-]. right. split; [|done].
      intros a u (? & ? & ? & [= <-] & ? & _). done.
  - intros [= <-]. right. split; [|done].
    intros a u (? & ? & ? & [=] & _).
Qed.

Lemma parse_rows_lookup (rows : list (list (string * pyval)))
    (acc res : list (string * string)) (k c : string) :
  parse_rows acc rows = ok res ->
  Dict.get k res = Some c <->
  (exists rows1 r rows2,
      rows = rows1 ++ r :: rows2 /\ includes r k c
      /\ forall r' c', r' ∈ rows2 -> ~ includes r' k c')
  \/ (Dict.get k acc = Some c
      /\ forall r' c', r' ∈ rows -> ~ includes r' k c').
Proof.
  revert acc. induction rows as [|r rows IH]; intros acc; simpl.
  - intros [= <-]. split.
    + intros H. right. split; [done|]. by intros r' c' ?%elem_of_nil.
    + intros [(rows1 & r & rows2 & Heq & _)|[H _]]; [|done].
      by destruct rows1.
  - destruct (parse_row acc r) as [e|acc1] eqn:Hrow; simpl; [done|].
    intros Hres. rewrite (IH acc1 Hres). clear IH Hres.
    apply parse_row_inv in Hrow. split.
    + intros [(rows1 & r0 & rows2 & -> & Hinc & Hlater)|[Hget Hnone]].
      { left. by exists (r :: rows1), r0, rows2. }
      destruct Hrow as [(a & u & Hinc & ->)|[Hexc ->]].
      * rewrite dict_get_set in Hget.
        destruct (String.eqb_spec k a) as [->|Hne].
        -- injection Hget as <-. left. by exists [], r, rows.
        -- right. split; [done|].
           intros r' c' [->|Hin]%elem_of_cons; [|by eapply Hnone].
           intros Hinc'. by destruct (includes_fun _ _ _ _ _ Hinc Hinc').
      * right. split; [done|].
        intros r' c' [->|Hin]%elem_of_cons; [apply Hexc|by eapply Hnone].
    + intros [(rows1 & r0 & rows2 & Heq & Hinc & Hlater)|[Hget Hnone]].
      * destruct rows1 as [|r1 rows1]; simpl in Heq; injection Heq as <- ->.
        -- right. split; [|done].
           destruct Hrow as [(a & u & Hinc' & ->)|[Hexc ->]].
           ++ destruct (includes_fun _ _ _ _ _ Hinc Hinc') as [<- <-].
              apply dict_get_set_eq.
           ++ by destruct (Hexc k c).
        -- left. by exists rows1, r0, rows2.
      * right. split; [|intros r' c' Hin; apply Hnone; by right].
        destruct Hrow as [(a & u & Hinc' & ->)|[Hexc ->]]; [|done].
        rewrite dict_get_set_ne; [done|].
        intros ->. apply (Hnone r u); [left|done].
Qed.

(** C8 (amended).  When [parse_csv] returns a mapping, a name [k] is
    mapped to [c] exactly when some row of the payload is selected
    ("Best", trimmed and lowercased, is "yes"), has a URL that [clean_url]
    accepts with canonical form [c], and a name that normalizes to the
    non-empty [k], no later such row bearing the same normalized name.
    Rows that fail one of the three conditions contribute nothing. *)
Theorem parse_csv_includes_iff (reader : string -> list (list (string * pyval)) * option exn)
    (text : string) (res : list (string * string)) (k c : string) :
  parse_csv reader text = ok res ->
  Dict.get k res = Some c <->
  exists rows1 r rows2,
    fst (reader text) = rows1 ++ r :: rows2
    /\ includes r k c
    /\ forall r' c', r' ∈ rows2 -> ~ includes r' k c'.
Proof.
  unfold parse_csv. destruct (reader text) as [rows failure]. simpl.
  destruct (parse_rows [] rows) as [e|res'] eqn:Hrows; simpl; [done|].
  destruct failure; simpl; [done|]. intros [= <-].
  rewrite (parse_rows_lookup _ _ _ k c Hrows). split.
  - intros [H|[H _]]; done.
  - intros H. by left.
Qed.

Lemma parse_csv_includes_iff_witness :
  parse_csv sample_reader "payload" = ok [("jssmith", sample_canonical)]
  /\ (Dict.get "jssmith" [("jssmith", sample_canonical)] = Some sample_canonical
      <->
      exists rows1 r rows2,
        fst (sample_reader "payload") = rows1 ++ r :: rows2
        /\ includes r "jssmith" sample_canonical
        /\ forall r' c', r' ∈ rows2 -> ~ includes r' "jssmith" c').
Proof.
  split; [reflexivity|].
  apply (parse_csv_includes_iff sample_reader "payload").
  reflexivity.
Defined.

(** C8, as stated, fails: a selected row with a valid URL is left out when
    its name has no letter, digit or dollar sign. *)
Lemma selected_valid_row_not_included :
  best_of punct_row = ok "yes"
  /\ url_of punct_row = ok (Some sample_canonical)
  /\ parse_csv (fun _ => ([punct_row], None)) "payload" = ok [].
Proof. repeat split. Qed.

Lemma parse_rows_elem (rows : list (list (string * pyval)))
    (acc res : list (string * string)) (r : list (string * pyval)) :
  parse_rows acc rows = ok res -> r ∈ rows ->
  exists acc1 acc2, parse_row acc1 r = ok acc2.
Proof.
  revert acc. induction rows as [|r0 rows IH]; intros acc; simpl.
  - by intros _ ?%elem_of_nil.
  - destruct (parse_row acc r0) as [e|acc1] eqn:Hrow; simpl; [done|].
    intros Hres [->|Hin]%elem_of_cons; eauto.
Qed.

Lemma parse_row_empty_name (acc1 acc2 acc : list (string * string))
    (r : list (string * pyval)) :
  parse_row acc1 r = ok acc2 -> artist_of r = ok "" ->
  parse_row acc r = ok acc.
Proof.
  unfold parse_row. intros H Ha. rewrite Ha in *.
  destruct (best_of r) as [e|best]; simpl in *; [done|].
  destruct (negb (String.eqb best "yes")); [done|]. simpl in *.
  destruct (url_of r) as [e|[u|]]; simpl in *; done.
Qed.

(** C9.  When [parse_csv] returns a mapping, the empty string is not one
    of its keys, and a row whose name normalizes to the empty string
    leaves the mapping as it was, whatever its "Best" and "URL" cells. *)
Theorem parse_csv_drops_empty_name (reader : string -> list (list (string * pyval)) * option exn)
    (text : string) (res : list (string * string)) :
  parse_csv reader text = ok res ->
  Dict.get "" res = None
  /\ forall r, r ∈ fst (reader text) -> artist_of r = ok "" ->
               forall acc, parse_row acc r = ok acc.
Proof.
  unfold parse_csv. destruct (reader text) as [rows failure]. simpl.
  destruct (parse_rows [] rows) as [e|res'] eqn:Hrows; simpl; [done|].
  destruct failure; simpl; [done|]. intros [= <-]. split.
  - destruct (Dict.get "" res') as [c|] eqn:Hget; [exfalso|done].
    apply (parse_rows_lookup _ _ _ _ _ Hrows) in Hget
      as [(_ & r & _ & _ & Hinc & _)|[? _]]; [|done].
    by destruct Hinc as (? & ? & ? & _ & _ & _ & _ & ? & _).
  - intros r Hin Ha acc.
    destruct (parse_rows_elem _ _ _ _ Hrows Hin) as (acc1 & acc2 & Hrow).
    by eapply parse_row_empty_name.
Qed.

Lemma parse_csv_drops_empty_name_witness :
  parse_csv sample_reader "payload" = ok [("jssmith", sample_canonical)]
  /\ Dict.get "" [("jssmith", sample_canonical)] = None
  /\ forall r, r ∈ fst (sample_reader "payload") -> artist_of r = ok "" ->
               forall acc, parse_row acc r = ok acc.
Proof.
  split; [reflexivity|].
  apply (parse_csv_drops_empty_name sample_reader "payload").
  reflexivity.
Defined.

(** ** Dates *)

Lemma date_gt_irrefl (d : date) : date_gt d d = false.
Proof.
  unfold date_gt. rewrite !Z.ltb_irrefl, !Z.eqb_refl. reflexivity.
Qed.

Lemma date_gt_iff (a b : date) :
  date_gt a b = true <->
  year b < year a
  \/ (year b = year a
      /\ (month b < month a \/ (month b = month a /\ day b < day a))).
Proof.
  unfold date_gt.
  rewrite !orb_true_iff, !andb_true_iff, !orb_true_iff, !andb_true_iff.
  rewrite !Z.ltb_lt, !Z.eqb_eq. tauto.
Qed.

(** A date that is after [last] stays after it on any later day. *)
Lemma date_gt_later (today later last : date) :
  date_gt today last = true -> date_gt today later = false ->
  date_gt later last = true.
Proof.
  intros H1 H2. apply date_gt_iff in H1. apply date_gt_iff.
  apply not_true_iff_false in H2. rewrite date_gt_iff in H2. lia.
Qed.

Lemma should_archive_today_later (today later : date) (last : pyval) :
  should_archive_today today last = true ->
  date_gt today later = false ->
  should_archive_today later last = true.
Proof.
  unfold should_archive_today.
  destruct (strptime last) as [e|d]; simpl; [done|].
  apply date_gt_later.
Qed.

(** ** Archive Throttler *)

Ltac io_unfold :=
  unfold mbind, mret, io_bind, io_ret, bind, ret, raise, lift, gets, modify,
    try_except in *.

(** A file that is not due is left alone. *)
Lemma archive_file_not_due (E : env) (file_path public_url : string)
    (w : world) :
  should_archive_today (date_of E (now w))
    (default PNone
       (Dict.get "lastarchive" (read_metadata (files w) file_path))) = false ->
  archive_file E file_path public_url w = (ok tt, w).
Proof.
  intros Hnot.
  unfold archive_file, load_metadata, sha256_of_file, today. io_unfold.
  by rewrite Hnot.
Qed.

(** C5.  When the sidecar of the file holds a [lastarchive] that reads as
    the date of the day, [archive_file] returns at once: the world is what
    it was, so nothing was written, the archive service was not called and
    no delay was taken, whatever the content of the file. *)
Theorem archive_file_skips (E : env) (file_path public_url : string)
    (w : world) (last : pyval) :
  Dict.get "lastarchive" (read_metadata (files w) file_path) = Some last ->
  strptime last = ok (date_of E (now w)) ->
  archive_file E file_path public_url w = (ok tt, w).
Proof.
  intros Hlast Hparse. apply archive_file_not_due.
  rewrite Hlast. simpl. unfold should_archive_today.
  rewrite Hparse. simpl. apply date_gt_irrefl.
Qed.

Lemma archive_file_skips_witness :
  Dict.get "lastarchive"
    (read_metadata (files archived_today) "downloads/a/song.mp3")
  = Some (PStr "2026-11-03")
  /\ strptime (PStr "2026-11-03")
     = ok (date_of (sample_env (ok "archived") 200) (now archived_today))
  /\ archive_file (sample_env (ok "archived") 200)
       "downloads/a/song.mp3" "https://trackers.artistgrid.cx/downloads/a/song.mp3"
       archived_today
     = (ok tt, archived_today).
Proof.
  assert (Dict.get "lastarchive"
            (read_metadata (files archived_today) "downloads/a/song.mp3")
          = Some (PStr "2026-11-03")) as H1 by (by vm_compute).
  assert (strptime (PStr "2026-11-03")
          = ok (date_of (sample_env (ok "archived") 200) (now archived_today)))
    as H2 by (by vm_compute).
  split; [exact H1|]. split; [exact H2|].
  exact (archive_file_skips _ _ _ _ _ H1 H2).
Defined.

(** C6.  When the file is due and the submission raises, [archive_file]
    catches the exception and writes nothing: files (the sidecar among
    them), catalog cache and failure log are what they were; the delay and
    the call are the only effects; and the file is due again on that day
    and on any later one. *)
Theorem archive_file_failure (E : env) (file_path public_url : string)
    (w : world) (e : exn) :
  should_archive_today (date_of E (now w))
    (default PNone
       (Dict.get "lastarchive" (read_metadata (files w) file_path))) = true ->
  wayback_save E public_url = throw e ->
  let out := archive_file E file_path public_url w in
  fst out = ok tt
  /\ files (snd out) = files w
  /\ cache (snd out) = cache w
  /\ down_log (snd out) = down_log w
  /\ trace (snd out)
     = trace w ++ [Sleep (randint_7_13 E * 60); Archive public_url]
  /\ forall t,
       date_gt (date_of E (now w)) (date_of E t) = false ->
       should_archive_today (date_of E t)
         (default PNone
            (Dict.get "lastarchive"
               (read_metadata (files (snd out)) file_path))) = true.
Proof.
  intros Hdue Hfail.
  unfold archive_file, load_metadata, sha256_of_file, today, sleep, wayback.
  io_unfold. simpl. rewrite Hdue. simpl. rewrite Hfail. simpl.
  repeat split.
  - by rewrite <- app_assoc.
  - intros t Ht. by eapply should_archive_today_later.
Qed.

Lemma archive_file_failure_witness :
  should_archive_today (date_of failing_env (now archived_before))
    (default PNone
       (Dict.get "lastarchive"
          (read_metadata (files archived_before) "downloads/a/song.mp3")))
  = true
  /\ wayback_save failing_env "public" = throw WaybackError
  /\ fst (archive_file failing_env "downloads/a/song.mp3" "public"
            archived_before) = ok tt
  /\ files (snd (archive_file failing_env "downloads/a/song.mp3" "public"
                   archived_before)) = files archived_before.
Proof.
  assert (should_archive_today (date_of failing_env (now archived_before))
            (default PNone
               (Dict.get "lastarchive"
                  (read_metadata (files archived_before)
                     "downloads/a/song.mp3")))
          = true) as H1 by (by vm_compute).
  split; [exact H1|]. split; [reflexivity|].
  destruct (archive_file_failure failing_env "downloads/a/song.mp3" "public"
              archived_before WaybackError H1 eq_refl) as (H2 & H3 & _).
  split; [exact H2|exact H3].
Defined.

(** ** Export Downloader *)

Lemma same_but_files_refl (w : world) : same_but_files w w.
Proof. by repeat split. Qed.

Lemma same_but_files_trans (w1 w2 w3 : world) :
  same_but_files w1 w2 -> same_but_files w2 w3 -> same_but_files w1 w3.
Proof.
  intros (? & ? & ? & ?) (? & ? & ? & ?). repeat split; congruence.
Qed.

(** Writing a file changes the files only, and raises nothing but
    [OSError]. *)
Lemma write_file_out (path data : string) (w : world) :
  exists w1, same_but_files w w1
    /\ (write_file path data w = (ok tt, w1)
        \/ write_file path data w = (throw OSError, w1)).
Proof.
  unfold write_file. destruct (names_directory path); io_unfold.
  - exists w. split; [apply same_but_files_refl|by right].
  - eexists. split; [|by left]. by repeat split.
Qed.

Lemma extract_members_out (artist_dir : string)
    (members : list (string * zip_member)) (w : world) :
  exists w1, same_but_files w w1
    /\ (extract_members artist_dir members w = (ok tt, w1)
        \/ exists e, not_http_error e
             /\ extract_members artist_dir members w = (throw e, w1)).
Proof.
  revert w. induction members as [|[member stored] members IH]; intros w.
  - exists w. split; [apply same_but_files_refl|by left].
  - simpl. destruct (String.eqb (basename member) ""); [apply IH|].
    destruct stored as [| |data].
    + exists w. split; [apply same_but_files_refl|].
      right. by exists BadZipFile.
    + io_unfold.
      destruct (write_file_out
        (path_join artist_dir (sanitize_filename (basename member))) "" w)
        as (w1 & Hsame & [-> | ->]); exists w1; (split; [done|]); right.
      * by exists BadZipFile.
      * by exists OSError.
    + io_unfold.
      destruct (write_file_out
        (path_join artist_dir (sanitize_filename (basename member))) data w)
        as (w1 & Hsame & [-> | ->]).
      * destruct (IH w1) as (w2 & Hsame2 & Hout). exists w2.
        split; [by eapply same_but_files_trans|done].
      * exists w1. split; [done|]. right. by exists OSError.
Qed.

Lemma log_if_unauthorized_other (url : string) (e : exn) (w : world) :
  not_http_error e -> log_if_unauthorized url e w = (ok tt, w).
Proof. by destruct e. Qed.

#[local] Arguments write_file : simpl never.
#[local] Arguments extract_members : simpl never.
#[local] Arguments log_if_unauthorized : simpl never.
#[local] Arguments path_join : simpl never.

Lemma raise_for_status_401 (r : response) :
  ((400 <=? status_code r) && (status_code r <? 600)) = false ->
  (status_code r =? 401) = false.
Proof. lia. Qed.

Lemma download_xlsx_out (E : env) (sheet_id artist_dir : string) (w : world) :
  exists w1,
    download_xlsx E sheet_id artist_dir w = (ok tt, w1)
    /\ cache w1 = cache w /\ now w1 = now w
    /\ trace w1 = trace w ++ [Get (xlsx_url_of sheet_id)]
    /\ down_log w1
       = down_log w ++ (if unauthorized E (xlsx_url_of sheet_id)
                       then [xlsx_url_of sheet_id] else []).
Proof.
  unfold download_xlsx, requests_get, raise_for_status, unauthorized.
  io_unfold. simpl.
  destruct (http_get E (xlsx_url_of sheet_id)) as [r|]; simpl.
  - destruct ((400 <=? status_code r) && (status_code r <? 600)) eqn:Hst;
      simpl.
    + unfold log_if_unauthorized, log_down_host. io_unfold.
      destruct (status_code r =? 401); eexists; (split; [reflexivity|]);
        simpl; by rewrite ?app_nil_r.
    + rewrite (raise_for_status_401 r Hst).
      destruct (write_file_out (path_join artist_dir "spreadsheet.xlsx")
                  (content r) (emit (Get (xlsx_url_of sheet_id)) w))
        as (w1 & (Hc & Hl & Hn & Ht) & [-> | ->]); simpl;
        exists w1; rewrite Hc, Hl, Hn, Ht; simpl; by rewrite app_nil_r.
  - eexists. split; [reflexivity|]. simpl. by rewrite app_nil_r.
Qed.

Lemma download_zip_out (E : env) (sheet_id artist_dir : string) (w : world) :
  exists w1,
    download_zip E sheet_id artist_dir w = (ok tt, w1)
    /\ cache w1 = cache w /\ now w1 = now w
    /\ trace w1 = trace w ++ [Get (zip_url_of sheet_id)]
    /\ down_log w1
       = down_log w ++ (if unauthorized E (zip_url_of sheet_id)
                       then [zip_url_of sheet_id] else []).
Proof.
  unfold download_zip, requests_get, raise_for_status, unauthorized.
  io_unfold. simpl.
  destruct (http_get E (zip_url_of sheet_id)) as [r|]; simpl.
  - destruct ((400 <=? status_code r) && (status_code r <? 600)) eqn:Hst;
      simpl.
    + unfold log_if_unauthorized, log_down_host. io_unfold.
      destruct (status_code r =? 401); eexists; (split; [reflexivity|]);
        simpl; by rewrite ?app_nil_r.
    + rewrite (raise_for_status_401 r Hst).
      destruct (write_file_out (path_join artist_dir "spreadsheet.zip")
                  (content r) (emit (Get (zip_url_of sheet_id)) w))
        as (w1 & (Hc & Hl & Hn & Ht) & [-> | ->]); simpl;
        [|exists w1; rewrite Hc, Hl, Hn, Ht; simpl; by rewrite app_nil_r].
      destruct (files w1 !! path_join artist_dir "spreadsheet.zip")
        as [data|]; simpl;
        [|exists w1; rewrite Hc, Hl, Hn, Ht; simpl; by rewrite app_nil_r].
      destruct (zip_file E data) as [members|]; simpl;
        [|exists w1; rewrite Hc, Hl, Hn, Ht; simpl; by rewrite app_nil_r].
      destruct (extract_members_out artist_dir members w1)
        as (w2 & (Hc2 & Hl2 & Hn2 & Ht2) & [-> | (e & He & ->)]); simpl.
      * exists w2. rewrite Hc2, Hl2, Hn2, Ht2, Hc, Hl, Hn, Ht. simpl.
        by rewrite app_nil_r.
      * rewrite log_if_unauthorized_other by done.
        exists w2. rewrite Hc2, Hl2, Hn2, Ht2, Hc, Hl, Hn, Ht. simpl.
        by rewrite app_nil_r.
  - eexists. split; [reflexivity|]. simpl. by rewrite app_nil_r.
Qed.

(** C7.  [download_exports] always asks for both formats, the XLSX one
    first, whatever happens to either, and never raises; the failure log
    gains the URL of a request exactly when that request was answered
    with status 401, one line for each such request, and nothing else. *)
Theorem download_exports_unauthorized (E : env) (sheet_id artist_dir : string)
    (w : world) :
  fst (download_exports E sheet_id artist_dir w) = ok tt
  /\ trace (snd (download_exports E sheet_id artist_dir w))
     = trace w ++ [Get (xlsx_url_of sheet_id); Get (zip_url_of sheet_id)]
  /\ down_log (snd (download_exports E sheet_id artist_dir w))
     = down_log w
       ++ (if unauthorized E (xlsx_url_of sheet_id)
           then [xlsx_url_of sheet_id] else [])
       ++ (if unauthorized E (zip_url_of sheet_id)
           then [zip_url_of sheet_id] else [])
  /\ cache (snd (download_exports E sheet_id artist_dir w)) = cache w.
Proof.
  unfold download_exports. io_unfold.
  destruct (download_xlsx_out E sheet_id artist_dir w)
    as (w1 & -> & Hc1 & _ & Ht1 & Hl1).
  destruct (download_zip_out E sheet_id artist_dir w1)
    as (w2 & -> & Hc2 & _ & Ht2 & Hl2).
  simpl. rewrite Hc2, Ht2, Hl2, Hc1, Ht1, Hl1.
  by rewrite <- !app_assoc.
Qed.

(** ** The cycle *)

Lemma download_exports_out (E : env) (sheet_id artist_dir : string)
    (w : world) :
  exists w1, download_exports E sheet_id artist_dir w = (ok tt, w1)
             /\ cache w1 = cache w.
Proof.
  unfold download_exports. io_unfold.
  destruct (download_xlsx_out E sheet_id artist_dir w)
    as (w1 & -> & Hc1 & _).
  destruct (download_zip_out E sheet_id artist_dir w1)
    as (w2 & -> & Hc2 & _).
  exists w2. split; [done|congruence].
Qed.

Lemma update_all_out (E : env) (items : list (string * string))
    (tasks : list (string * string)) (w : world) :
  exists tasks' w1, update_all E items tasks w = (ok tasks', w1)
                    /\ cache w1 = cache w.
Proof.
  revert tasks w. induction items as [|[artist url] items IH];
    intros tasks w; simpl.
  - by exists tasks, w.
  - destruct (extract_sheet_id url) as [sheet_id|]; [|apply IH].
    io_unfold.
    destruct (download_exports_out E sheet_id (path_join EXPORT_DIR artist) w)
      as (w1 & -> & Hc1).
    destruct (IH (tasks ++
                  map (fun filename =>
                         (path_join (path_join EXPORT_DIR artist) filename,
                          public_url_of E artist filename))
                      (listdir_files (files w1)
                         (path_join EXPORT_DIR artist))) w1)
      as (tasks' & w2 & Hout & Hc2).
    exists tasks', w2. split; [exact Hout|congruence].
Qed.

Lemma start_threads_out (tasks : list (string * string)) (w : world) :
  exists w1, start_threads tasks w = (ok tt, w1) /\ cache w1 = cache w.
Proof.
  revert w. induction tasks as [|[file_path public_url] tasks IH];
    intros w; simpl.
  - by exists w.
  - io_unfold. destruct (IH (emit (Spawn file_path public_url) w))
      as (w1 & Hout & Hc).
    exists w1. by split.
Qed.

(** X23.  When the catalog is fetched and parsed, the cycle does not
    raise and ends by storing that catalog, whole, as the new cache,
    whatever happened to the downloads: names that the source no longer
    lists are gone from the cache. *)
Lemma run_once_saves_remote (E : env) (w w1 : world)
    (remote_data : list (string * string)) :
  fetch_remote E w = (ok remote_data, w1) ->
  fst (run_once E w) = ok tt
  /\ cache (snd (run_once E w)) = Some remote_data.
Proof.
  intros Hfetch. unfold run_once, load_cached_csv, save_csv. io_unfold.
  rewrite Hfetch. simpl.
  match goal with
  | |- context [to_update remote_data ?c] =>
      destruct (to_update remote_data c) as [|item items]; [done|]
  end.
  destruct (update_all_out E (item :: items) [] w1) as (tasks & w2 & -> & _).
  unfold ok. destruct (start_threads_out tasks w2) as (w3 & -> & _).
  done.
Qed.

(** X26.  The [try] block of [run_once] raises in three cases and no
    other: the request raises, the answer has a status from 400 to 599,
    or the parsing of the payload raises. *)
Lemma fetch_remote_raises_iff (E : env) (w : world) :
  (exists e, fst (fetch_remote E w) = throw e) <-> fetch_failure E.
Proof.
  unfold fetch_remote, requests_get, raise_for_status. io_unfold. simpl.
  split.
  - destruct (http_get E REMOTE_CSV_URL) as [r|] eqn:Hget; simpl;
      [|intros _; by apply Transport].
    destruct ((400 <=? status_code r) && (status_code r <? 600)) eqn:Hst;
      simpl.
    + intros _. apply (ErrorStatus E r); [done|lia].
    + intros [e He]. by apply (ParseRaises E r e).
  - intros [Hget|r Hget Hst|r e Hget Hparse]; rewrite Hget; simpl.
    + by exists RequestException.
    + assert ((400 <=? status_code r) && (status_code r <? 600) = true)
        as -> by lia.
      by eexists.
    + destruct ((400 <=? status_code r) && (status_code r <? 600)); simpl;
        by eexists.
Qed.

(** C4 (amended).  When the catalog request raises, or is answered with a
    status from 400 to 599, or the parsing of the payload raises, the cycle
    stops there: the request is its only effect, and the catalog cache,
    the files and the failure log are what they were. *)
Theorem run_once_fetch_failure (E : env) (w : world) :
  fetch_failure E ->
  run_once E w = (ok tt, emit (Get REMOTE_CSV_URL) w).
Proof.
  intros Hfail.
  unfold run_once, fetch_remote, requests_get, raise_for_status.
  io_unfold. simpl.
  destruct Hfail as [Hget|r Hget Hst|r e Hget Hparse]; rewrite Hget; simpl.
  - reflexivity.
  - assert ((400 <=? status_code r) && (status_code r <? 600) = true)
      as -> by lia.
    reflexivity.
  - destruct ((400 <=? status_code r) && (status_code r <? 600));
      simpl; [reflexivity|].
    by rewrite Hparse.
Qed.

Lemma run_once_fetch_failure_witness :
  fetch_failure (sample_env (ok "archived") 503)
  /\ run_once (sample_env (ok "archived") 503) cached_world
     = (ok tt, emit (Get REMOTE_CSV_URL) cached_world).
Proof.
  assert (fetch_failure (sample_env (ok "archived") 503)) as H.
  { apply (ErrorStatus _ (Response 503 "payload")); [reflexivity|simpl; lia]. }
  split; [exact H|].
  exact (run_once_fetch_failure (sample_env (ok "archived") 503) cached_world H).
Defined.

(** C4, as stated, fails: a response that is not 2xx and not an error for
    [raise_for_status] (here 304, with an empty body) is parsed, and the
    cache is overwritten with the empty catalog. *)
Lemma run_once_overwrites_on_304 :
  http_get not_modified_env REMOTE_CSV_URL = Some (Response 304 "")
  /\ cache cached_world = Some [("alpha", sample_canonical)]
  /\ cache (snd (run_once not_modified_env cached_world)) = Some [].
Proof. repeat split. Qed.

(** ** File metadata: what is saved is what is loaded *)

Lemma splitlines_line (line rest : string) :
  no_line_break line = true ->
  splitlines_from false (line +:+ String "010" rest)
  = line :: splitlines_from false rest.
Proof.
  unfold no_line_break.
  induction line as [|c line IH]; simpl; [done|].
  intros [Hc Hl]%andb_true_iff. apply negb_true_iff in Hc.
  rewrite Hc, IH by done. reflexivity.
Qed.

Lemma splitlines_format (d : list (string * pyval)) :
  Forall line_safe d ->
  splitlines (format_metadata d)
  = map (fun kv => fst kv +:+ ":" +:+ format_pyval (snd kv)) d.
Proof.
  unfold splitlines. induction 1 as [|[k v] d (Hk1 & Hk2 & Hv) _ IH]; [done|].
  cbn [fst snd] in *.
  change (format_metadata ((k, v) :: d))
    with (k +:+ ":" +:+ format_pyval v +:+ String "010" ""
          +:+ format_metadata d).
  replace (k +:+ ":" +:+ format_pyval v +:+ String "010" ""
           +:+ format_metadata d)
    with ((k +:+ ":" +:+ format_pyval v) +:+ String "010" (format_metadata d))
    by (by rewrite !str_app_assoc).
  rewrite splitlines_line, IH; [done|].
  unfold no_line_break in *. rewrite !str_all_app, Hk2, Hv. reflexivity.
Qed.

Lemma split_colon_app (k v : string) :
  no_colon k = true -> split_colon (k +:+ String ":" v) = Some (k, v).
Proof.
  unfold no_colon. induction k as [|c k IH]; simpl in *; [done|].
  intros [Hc Hk]%andb_true_iff. apply negb_true_iff in Hc.
  by rewrite Hc, IH.
Qed.

Lemma split_colon_inv (line k v : string) :
  split_colon line = Some (k, v) ->
  line = k +:+ ":" +:+ v /\ no_colon k = true.
Proof.
  unfold no_colon. revert k. induction line as [|c line IH]; intros k; simpl; [done|].
  destruct (Ascii.eqb_spec c ":") as [->|Hne].
  - by intros [= <- <-].
  - destruct (split_colon line) as [[k' v']|]; [|done].
    intros [= <- <-]. destruct (IH k' eq_refl) as [-> Hk]. simpl.
    rewrite Hk. split; [done|].
    by destruct (Ascii.eqb_spec c ":").
Qed.

Lemma dict_fold_set_fresh {V} (l acc : list (string * V)) :
  NoDup (l.*1) -> (forall k, k ∈ l.*1 -> k ∉ acc.*1) ->
  fold_left (fun d kv => Dict.set (fst kv) (snd kv) d) l acc = acc ++ l.
Proof.
  revert acc. induction l as [|[k v] l IH]; intros acc Hnd Hfresh; simpl.
  - by rewrite app_nil_r.
  - simpl in Hnd. apply NoDup_cons in Hnd as [Hk Hnd].
    rewrite dict_set_fresh by (apply Hfresh; left).
    rewrite IH; [by rewrite <- app_assoc|done|].
    intros k' Hk'. rewrite fmap_app, elem_of_app. simpl.
    intros [Hin|Hin%list_elem_of_singleton].
    + by apply (Hfresh k'); [right|].
    + by subst.
Qed.

Lemma dict_of_items_wf {V} (l : list (string * V)) :
  Dict.wf l -> Dict.of_items l = l.
Proof.
  intros Hwf. unfold Dict.of_items. rewrite dict_fold_set_fresh; [done..|].
  intros k _. apply not_elem_of_nil.
Qed.

Lemma dict_set_keys {V} (d : list (string * V)) (k : string) (v : V) :
  (Dict.set k v d).*1 = if bool_decide (k ∈ d.*1) then d.*1 else d.*1 ++ [k].
Proof.
  induction d as [|[k' v'] d IH]; csimpl; [done|].
  destruct (String.eqb_spec k k') as [->|Hne]; csimpl.
  - rewrite bool_decide_eq_true_2; [done|left].
  - rewrite IH. destruct (bool_decide (k ∈ d.*1)) eqn:Hin.
    + apply bool_decide_eq_true_1 in Hin.
      rewrite bool_decide_eq_true_2; [done|by right].
    + apply bool_decide_eq_false_1 in Hin.
      rewrite bool_decide_eq_false_2; [done|].
      by intros [?|?]%elem_of_cons.
Qed.

Lemma dict_set_wf {V} (d : list (string * V)) (k : string) (v : V) :
  Dict.wf d -> Dict.wf (Dict.set k v d).
Proof.
  unfold Dict.wf. rewrite dict_set_keys. intros Hnd.
  destruct (bool_decide (k ∈ d.*1)) eqn:Hin; [done|].
  apply bool_decide_eq_false_1 in Hin.
  apply NoDup_app. repeat split; [done| |apply NoDup_singleton].
  intros x Hx ->%list_elem_of_singleton. done.
Qed.

Lemma dict_set_Forall {V} (P : string * V -> Prop) (d : list (string * V))
    (k : string) (v : V) :
  Forall P d -> P (k, v) -> Forall P (Dict.set k v d).
Proof.
  intros Hd Hv. induction Hd as [|[k' v'] d Hx Hd IH]; simpl.
  - by repeat constructor.
  - destruct (String.eqb_spec k k') as [->|]; constructor; auto.
Qed.

Lemma dict_fold_set_inv {V} (P : string * V -> Prop)
    (l acc : list (string * V)) :
  Dict.wf acc -> Forall P acc -> Forall P l ->
  Dict.wf (fold_left (fun d kv => Dict.set (fst kv) (snd kv) d) l acc)
  /\ Forall P (fold_left (fun d kv => Dict.set (fst kv) (snd kv) d) l acc).
Proof.
  revert acc. induction l as [|[k v] l IH]; intros acc Hwf Hacc Hl; simpl.
  - done.
  - apply Forall_cons in Hl as [Hkv Hl].
    apply IH; [by apply dict_set_wf|by apply dict_set_Forall|done].
Qed.

(** A dictionary built from pairs has distinct keys, and its items are
    among the pairs. *)
Lemma dict_of_items_inv {V} (P : string * V -> Prop) (l : list (string * V)) :
  Forall P l -> Dict.wf (Dict.of_items l) /\ Forall P (Dict.of_items l).
Proof.
  intros Hl. apply dict_fold_set_inv; [apply NoDup_nil_2|constructor|done].
Qed.

Lemma splitlines_no_break (skip_lf : bool) (text : string) :
  Forall (fun l => no_line_break l = true) (splitlines_from skip_lf text).
Proof.
  revert skip_lf. induction text as [|c text IH]; intros skip_lf; simpl.
  - constructor.
  - destruct (skip_lf && Ascii.eqb c "010"); [apply IH|].
    destruct (is_line_break c) eqn:Hc; [constructor; [done|apply IH]|].
    specialize (IH false).
    destruct (splitlines_from false text) as [|l ls].
    + repeat constructor. unfold no_line_break. simpl. by rewrite Hc.
    + apply Forall_cons in IH as [Hl Hls]. constructor; [|done].
      unfold no_line_break in *. simpl. by rewrite Hc.
Qed.

(** The record [load_metadata] builds has distinct keys, holds strings
    only, and every item of it fits on a line. *)
Lemma parse_metadata_inv (text : string) :
  Dict.wf (parse_metadata text)
  /\ Forall (fun kv => line_safe kv /\ exists s, snd kv = PStr s)
            (parse_metadata text).
Proof.
  unfold parse_metadata. apply dict_of_items_inv.
  pose proof (splitlines_no_break false text) as Hlines.
  fold (splitlines text) in Hlines.
  induction Hlines as [|line lines Hline _ IH]; simpl; [constructor|].
  destruct (split_colon line) as [[k v]|] eqn:Hsplit; [|exact IH].
  constructor; [|exact IH].
  apply split_colon_inv in Hsplit as [-> Hk].
  unfold line_safe, no_line_break in *. simpl.
  rewrite !str_all_app in Hline. simpl in Hline.
  apply andb_true_iff in Hline as [Hk' Hv]. eauto.
Qed.

Lemma parse_format_metadata (d : list (string * pyval)) :
  Dict.wf d -> Forall line_safe d ->
  parse_metadata (format_metadata d) = map as_loaded d.
Proof.
  intros Hwf Hsafe. unfold parse_metadata.
  rewrite splitlines_format by done.
  assert (omap (fun line =>
                  match split_colon line with
                  | Some (k, v) => Some (k, PStr v)
                  | None => None
                  end)
               (map (fun kv => fst kv +:+ ":" +:+ format_pyval (snd kv)) d)
          = map as_loaded d) as ->.
  { clear Hwf. induction Hsafe as [|[k v] d (Hk & _ & _) _ IH]; [done|].
    csimpl in *. rewrite split_colon_app by done. csimpl. by rewrite IH. }
  apply dict_of_items_wf. unfold Dict.wf in *.
  by rewrite <- list_fmap_compose.
Qed.

Lemma dict_get_as_loaded (d : list (string * pyval)) (k : string) :
  Dict.get k (map as_loaded d)
  = (fun v => PStr (format_pyval v)) <$> Dict.get k d.
Proof.
  induction d as [|[k' v'] d IH]; simpl; [done|].
  by destruct (String.eqb k k').
Qed.

Lemma basename_app (p q : string) :
  Str.all (fun x => negb (Ascii.eqb x "/")) q = true ->
  q <> "" ->
  basename (p +:+ q) = basename p +:+ q.
Proof.
  intros Hq Hne. induction p as [|c p IH]; simpl.
  - destruct q as [|x q]; [done|]. simpl in *.
    apply andb_true_iff in Hq as [Hx Hq]. apply negb_true_iff in Hx.
    by rewrite Hq, Hx.
  - rewrite str_all_app, Hq, andb_true_r.
    destruct (Str.all _ p); [|done].
    by destruct (Ascii.eqb c "/").
Qed.

(** The path of a sidecar never names a directory. *)
Lemma metadata_path_is_file (file_path : string) :
  names_directory (get_metadata_path file_path) = false.
Proof.
  unfold names_directory, get_metadata_path.
  rewrite basename_app by done.
  assert (forall t, (String.length t < 5)%nat ->
            String.eqb (basename file_path +:+ ".meta") t = false) as Hlen.
  { intros t Ht. apply String.eqb_neq. intros Heq.
    apply (f_equal String.length) in Heq.
    rewrite str_length_app in Heq. simpl in Heq. lia. }
  rewrite !Hlen by (simpl; lia). reflexivity.
Qed.

Lemma digit_char_no_break (v : Z) : is_line_break (digit_char v) = false.
Proof.
  unfold digit_char.
  assert (0 <= v mod 10 < 10) as H by (apply Z.mod_pos_bound; lia).
  assert (v mod 10 = 0 \/ v mod 10 = 1 \/ v mod 10 = 2 \/ v mod 10 = 3
          \/ v mod 10 = 4 \/ v mod 10 = 5 \/ v mod 10 = 6 \/ v mod 10 = 7
          \/ v mod 10 = 8 \/ v mod 10 = 9) as Hc by lia.
  destruct Hc as [-> | [-> | [-> | [-> | [-> | [-> | [-> | [-> | [-> | ->]]]]]]]]];
    reflexivity.
Qed.

Lemma strftime_no_break (d : date) : no_line_break (strftime d) = true.
Proof.
  unfold no_line_break, strftime. simpl.
  by rewrite !digit_char_no_break.
Qed.

Lemma hex_digit_no_break (c : ascii) :
  is_hex_digit c = true -> is_line_break c = false.
Proof.
  destruct c as [[] [] [] [] [] [] [] []]; first [reflexivity | discriminate].
Qed.

Lemma hex_no_break (s : string) :
  Str.all is_hex_digit s = true -> no_line_break s = true.
Proof.
  unfold no_line_break. induction s as [|c s IH]; simpl; [done|].
  intros [Hc Hs]%andb_true_iff. by rewrite (hex_digit_no_break c Hc), IH.
Qed.

Lemma file_hash_no_break (E : env) (fs : gmap string string) (path : string) :
  hex_digest E -> no_line_break (format_pyval (file_hash E fs path)) = true.
Proof.
  intros Hhex. unfold file_hash.
  destruct (fs !! path); simpl; [by apply hex_no_break|reflexivity].
Qed.

(** The record that [archive_file] saves after a successful submission. *)
Lemma archive_file_success_out (E : env) (file_path public_url : string)
    (w : world) (archive_url : string) :
  should_archive_today (date_of E (now w))
    (default PNone
       (Dict.get "lastarchive" (read_metadata (files w) file_path))) = true ->
  wayback_save E public_url = ok archive_url ->
  archive_file E file_path public_url w
  = (ok tt,
     World
       (<[get_metadata_path file_path :=
            format_metadata
              (Dict.set "lastarchive"
                 (PStr (strftime (date_of E (now w + randint_7_13 E * 60))))
                 (Dict.set "sha256" (file_hash E (files w) file_path)
                    (read_metadata (files w) file_path)))]> (files w))
       (cache w) (down_log w) (now w + randint_7_13 E * 60)
       (trace w ++ [Sleep (randint_7_13 E * 60); Archive public_url])).
Proof.
  intros Hdue Hok.
  unfold archive_file, load_metadata, sha256_of_file, today, sleep, wayback,
    save_metadata, write_file.
  io_unfold. simpl. rewrite Hdue. simpl. rewrite Hok. simpl.
  rewrite metadata_path_is_file. simpl.
  unfold set_files. simpl. by rewrite <- app_assoc.
Qed.

(** The record that was saved is the record that is loaded next. *)
Lemma saved_record_loaded (E : env) (fs : gmap string string)
    (file_path day : string) :
  hex_digest E -> no_line_break day = true ->
  read_metadata
    (<[get_metadata_path file_path :=
         format_metadata
           (Dict.set "lastarchive" (PStr day)
              (Dict.set "sha256" (file_hash E fs file_path)
                 (read_metadata fs file_path)))]> fs)
    file_path
  = map as_loaded
      (Dict.set "lastarchive" (PStr day)
         (Dict.set "sha256" (file_hash E fs file_path)
            (read_metadata fs file_path))).
Proof.
  intros Hhex Hday.
  assert (Dict.wf (read_metadata fs file_path)
          /\ Forall line_safe (read_metadata fs file_path)) as [Hwf Hold].
  { unfold read_metadata.
    destruct (fs !! get_metadata_path file_path) as [text|].
    - destruct (parse_metadata_inv text) as [Hwf Hold]. split; [done|].
      eapply Forall_impl; [exact Hold|]. by intros kv [? _].
    - split; [apply NoDup_nil_2|constructor]. }
  unfold read_metadata at 1. rewrite lookup_insert_eq.
  apply parse_format_metadata.
  - by do 2 apply dict_set_wf.
  - apply dict_set_Forall; [apply dict_set_Forall; [done|]|].
    + repeat split; simpl; try done. by apply file_hash_no_break.
    + by repeat split.
Qed.

Lemma read_metadata_strings (fs : gmap string string) (file_path k : string)
    (v : pyval) :
  Dict.get k (read_metadata fs file_path) = Some v -> exists s, v = PStr s.
Proof.
  unfold read_metadata.
  destruct (fs !! get_metadata_path file_path) as [text|]; [|done].
  intros Hget%dict_get_Some_elem.
  destruct (parse_metadata_inv text) as [_ Hall].
  rewrite Forall_forall in Hall. by destruct (Hall _ Hget) as [_ ?].
Qed.

(** C3 (amended).  When the file is due and the submission succeeds, the
    sidecar is written anew from the record that was loaded, in which
    [sha256] is set to the hash of the file and [lastarchive] to the date
    of the moment of writing; the other keys of the old record are kept
    with their values, so the new record is made of these two keys alone
    only when the old one had no other.  No other file is touched. *)
Theorem archive_file_success (E : env) (file_path public_url : string)
    (w : world) (archive_url : string) :
  hex_digest E ->
  should_archive_today (date_of E (now w))
    (default PNone
       (Dict.get "lastarchive" (read_metadata (files w) file_path))) = true ->
  wayback_save E public_url = ok archive_url ->
  let out := archive_file E file_path public_url w in
  let old := read_metadata (files w) file_path in
  let new := read_metadata (files (snd out)) file_path in
  fst out = ok tt
  /\ Dict.get "sha256" new
     = Some (PStr (format_pyval (file_hash E (files w) file_path)))
  /\ Dict.get "lastarchive" new
     = Some (PStr (strftime (date_of E (now w + randint_7_13 E * 60))))
  /\ (forall k, k <> "sha256" -> k <> "lastarchive" ->
                Dict.get k new = Dict.get k old)
  /\ (forall p, p <> get_metadata_path file_path ->
                files (snd out) !! p = files w !! p).
Proof.
  intros Hhex Hdue Hok. cbv zeta.
  rewrite (archive_file_success_out _ _ _ _ _ Hdue Hok). simpl.
  rewrite saved_record_loaded by (done || apply strftime_no_break).
  repeat split.
  - rewrite dict_get_as_loaded, dict_get_set_ne, dict_get_set_eq by done.
    done.
  - by rewrite dict_get_as_loaded, dict_get_set_eq.
  - intros k Hk1 Hk2. rewrite dict_get_as_loaded, !dict_get_set_ne by done.
    destruct (Dict.get k (read_metadata (files w) file_path)) as [v|] eqn:Hget;
      [|done].
    destruct (read_metadata_strings _ _ _ _ Hget) as [s ->]. done.
  - intros p Hp. by rewrite lookup_insert_ne.
Qed.

Lemma archive_file_success_witness :
  hex_digest (sample_env (ok "archived") 200)
  /\ should_archive_today
       (date_of (sample_env (ok "archived") 200) (now archived_before))
       (default PNone
          (Dict.get "lastarchive"
             (read_metadata (files archived_before) "downloads/a/song.mp3")))
     = true
  /\ wayback_save (sample_env (ok "archived") 200) "public" = ok "archived"
  /\ Dict.get "sha256"
       (read_metadata
          (files (snd (archive_file (sample_env (ok "archived") 200)
                         "downloads/a/song.mp3" "public" archived_before)))
          "downloads/a/song.mp3")
     = Some (PStr "c0ffee").
Proof.
  assert (hex_digest (sample_env (ok "archived") 200)) as H0
    by (intros data; reflexivity).
  assert (should_archive_today
            (date_of (sample_env (ok "archived") 200) (now archived_before))
            (default PNone
               (Dict.get "lastarchive"
                  (read_metadata (files archived_before)
                     "downloads/a/song.mp3")))
          = true) as H1 by (by vm_compute).
  split; [exact H0|]. split; [exact H1|]. split; [reflexivity|].
  destruct (archive_file_success (sample_env (ok "archived") 200)
              "downloads/a/song.mp3" "public" archived_before "archived"
              H0 H1 eq_refl) as (_ & H2 & _).
  exact H2.
Defined.

(** C3, as stated, fails: the record written after a successful
    submission still holds the key [note] of the old record; it is a
    merge, not a record made of [sha256] and [lastarchive] alone. *)
Lemma archive_file_keeps_other_keys :
  read_metadata (files archived_before) "downloads/a/song.mp3"
  = [("note", PStr "keep"); ("lastarchive", PStr "2026-11-02")]
  /\ fst (archive_file (sample_env (ok "archived") 200)
            "downloads/a/song.mp3" "public" archived_before) = ok tt
  /\ read_metadata
       (files (snd (archive_file (sample_env (ok "archived") 200)
                      "downloads/a/song.mp3" "public" archived_before)))
       "downloads/a/song.mp3"
     = [("note", PStr "keep"); ("lastarchive", PStr "2026-11-03");
        ("sha256", PStr "c0ffee")].
Proof. repeat split; by vm_compute. Qed.

(** ** A date that was written reads back as itself *)

Lemma digit_digit_char (v : Z) : digit (digit_char v) = Some (v mod 10).
Proof.
  unfold digit_char.
  assert (0 <= v mod 10 < 10) as H by (apply Z.mod_pos_bound; lia).
  assert (v mod 10 = 0 \/ v mod 10 = 1 \/ v mod 10 = 2 \/ v mod 10 = 3
          \/ v mod 10 = 4 \/ v mod 10 = 5 \/ v mod 10 = 6 \/ v mod 10 = 7
          \/ v mod 10 = 8 \/ v mod 10 = 9) as Hc by lia.
  destruct Hc as [-> | [-> | [-> | [-> | [-> | [-> | [-> | [-> | [-> | ->]]]]]]]]];
    reflexivity.
Qed.

Lemma four_digits (y : Z) :
  0 <= y <= 9999 ->
  1000 * ((y / 1000) mod 10) + 100 * ((y / 100) mod 10)
  + 10 * ((y / 10) mod 10) + y mod 10 = y.
Proof. intros Hy. Z.div_mod_to_equations. lia. Qed.

Lemma first_month_strftime (m dd : Z) :
  1 <= m <= 12 -> 1 <= dd <= 31 ->
  first_month
    (month_candidates
       (String (digit_char (m / 10)) (String (digit_char m)
       (String "-" (String (digit_char (dd / 10)) (String (digit_char dd)
       EmptyString))))))
  = Some (m, dd, EmptyString).
Proof.
  intros Hm Hd.
  assert (m = 1 \/ m = 2 \/ m = 3 \/ m = 4 \/ m = 5 \/ m = 6 \/ m = 7
          \/ m = 8 \/ m = 9 \/ m = 10 \/ m = 11 \/ m = 12) as Hmc by lia.
  assert (dd = 1 \/ dd = 2 \/ dd = 3 \/ dd = 4 \/ dd = 5 \/ dd = 6 \/ dd = 7
          \/ dd = 8 \/ dd = 9 \/ dd = 10 \/ dd = 11 \/ dd = 12 \/ dd = 13
          \/ dd = 14 \/ dd = 15 \/ dd = 16 \/ dd = 17 \/ dd = 18 \/ dd = 19
          \/ dd = 20 \/ dd = 21 \/ dd = 22 \/ dd = 23 \/ dd = 24 \/ dd = 25
          \/ dd = 26 \/ dd = 27 \/ dd = 28 \/ dd = 29 \/ dd = 30 \/ dd = 31)
    as Hdc by lia.
  clear Hm Hd.
  repeat (destruct Hmc as [-> | Hmc]); try subst m;
    repeat (destruct Hdc as [-> | Hdc]); try subst dd; reflexivity.
Qed.

Lemma days_in_month_le (y m : Z) : days_in_month y m <= 31.
Proof.
  unfold days_in_month.
  repeat match goal with |- context [if ?b then _ else _] => destruct b end;
    lia.
Qed.

(** [strptime(d.strftime("%Y-%m-%d"), "%Y-%m-%d")] is [d], for a date
    whose year has four digits. *)
Lemma strptime_strftime (d : date) :
  valid_date d = true -> 1000 <= year d ->
  strptime (PStr (strftime d)) = ok d.
Proof.
  intros Hvalid _. pose proof Hvalid as Hv.
  unfold valid_date in Hv.
  rewrite !andb_true_iff, !Z.leb_le in Hv.
  destruct Hv as (((((Hy1 & Hy2) & Hm1) & Hm2) & Hd1) & Hd2).
  pose proof (days_in_month_le (year d) (month d)).
  unfold strptime, strftime.
  rewrite !digit_digit_char.
  rewrite first_month_strftime by lia.
  rewrite four_digits by lia.
  destruct d as [y m dd]. simpl in *. by rewrite Hvalid.
Qed.

(** X15.  After a successful submission the file is not submitted again
    on the day its sidecar was written, whatever happens to its content:
    this is the "at most once per calendar day" of the Archive
    Throttler. *)
Lemma archive_file_once_per_day (E : env) (file_path public_url : string)
    (w : world) (archive_url : string) (w' : world) (public_url' : string) :
  hex_digest E ->
  should_archive_today (date_of E (now w))
    (default PNone
       (Dict.get "lastarchive" (read_metadata (files w) file_path))) = true ->
  wayback_save E public_url = ok archive_url ->
  valid_date (date_of E (now w + randint_7_13 E * 60)) = true ->
  1000 <= year (date_of E (now w + randint_7_13 E * 60)) ->
  read_metadata (files w') file_path
  = read_metadata (files (snd (archive_file E file_path public_url w)))
      file_path ->
  date_of E (now w') = date_of E (now w + randint_7_13 E * 60) ->
  archive_file E file_path public_url' w' = (ok tt, w').
Proof.
  intros Hhex Hdue Hok Hvalid Hyear Hmeta Hdate.
  apply archive_file_not_due. rewrite Hmeta, Hdate.
  rewrite (archive_file_success_out _ _ _ _ _ Hdue Hok). simpl.
  rewrite saved_record_loaded by (done || apply strftime_no_break).
  rewrite dict_get_as_loaded, dict_get_set_eq. simpl.
  unfold should_archive_today. rewrite strptime_strftime by done.
  simpl. apply date_gt_irrefl.
Qed.

(** ** Name Normalizer *)

Lemma normalize_char (c : ascii) :
  is_lower_alnum
    (if Ascii.eqb (Str.lower_char c) "$" then "s"%char else Str.lower_char c)
  = is_name_char c.
Proof. destruct c as [[] [] [] [] [] [] [] []]; reflexivity. Qed.

(** X3.  On code points below 256, a name normalizes to the empty
    string exactly when it has no ASCII letter, no ASCII digit and no
    dollar sign. *)
Lemma normalize_empty_iff (name : string) :
  normalize_artist_name name = ""
  <-> Str.all (fun c => negb (is_name_char c)) name = true.
Proof.
  unfold normalize_artist_name, Str.replace_char, Str.lower.
  induction name as [|c name IH]; [done|].
  simpl. rewrite normalize_char.
  destruct (is_name_char c); simpl; [split; discriminate|exact IH].
Qed.

(** The normalized name is made of [a-z0-9]. *)
Lemma normalize_alnum (name : string) :
  Str.all is_lower_alnum (normalize_artist_name name) = true.
Proof. apply str_filter_all. Qed.

(** ** Scenarios of the specification, run on the model *)

Example normalize_dollar_name : normalize_artist_name "J$ Smith" = "jssmith".
Proof. reflexivity. Qed.

Example clean_url_sample : clean_url sample_url = Some sample_canonical.
Proof. reflexivity. Qed.

Example clean_url_short_segment :
  clean_url (SHEET_PREFIX +:+ "0123456789abcdefghijABCDEFGHIJ-_0123456789a"
             +:+ "/edit") = None.
Proof. reflexivity. Qed.

Example sanitize_zip_member :
  sanitize_filename (basename "folder/My Song (v2).mp3") = "MySongv2.mp3".
Proof. reflexivity. Qed.

Example download_exports_401 :
  down_log (snd (download_exports unauthorized_env sample_id "downloads/a"
                   empty_world))
  = [xlsx_url_of sample_id; zip_url_of sample_id].
Proof. reflexivity. Qed.

(** * Further properties of the code *)

(** ** Name Normalizer (main.py, lines 24-37) *)

Lemma str_map_fixed (f : ascii -> ascii) (P : ascii -> bool) (s : string) :
  (forall c, P c = true -> f c = c) ->
  Str.all P s = true -> Str.map f s = s.
Proof.
  intros Hf. induction s as [|c s IH]; simpl; [done|].
  intros [Hc Hs]%andb_true_iff. by rewrite (Hf c Hc), IH.
Qed.

Lemma str_filter_fixed (P : ascii -> bool) (s : string) :
  Str.all P s = true -> Str.filter P s = s.
Proof.
  induction s as [|c s IH]; simpl; [done|].
  intros [Hc Hs]%andb_true_iff. by rewrite Hc, IH.
Qed.

Lemma str_all_impl (P Q : ascii -> bool) (s : string) :
  (forall c, P c = true -> Q c = true) ->
  Str.all P s = true -> Str.all Q s = true.
Proof.
  intros HPQ. induction s as [|c s IH]; simpl; [done|].
  intros [Hc Hs]%andb_true_iff. by rewrite (HPQ c Hc), IH.
Qed.

Lemma str_map_map (f g : ascii -> ascii) (s : string) :
  Str.map f (Str.map g s) = Str.map (fun c => f (g c)) s.
Proof. induction s as [|c s IH]; simpl; [done|]. by rewrite IH. Qed.

Lemma lower_alnum_fixed (c : ascii) :
  is_lower_alnum c = true ->
  Str.lower_char c = c /\ Ascii.eqb c "$" = false.
Proof.
  destruct c as [[] [] [] [] [] [] [] []]; first [discriminate | by split].
Qed.

Lemma normalize_fixed (name : string) :
  Str.all is_lower_alnum name = true -> normalize_artist_name name = name.
Proof.
  intros Hall. unfold normalize_artist_name, Str.lower, Str.replace_char.
  rewrite (str_map_fixed Str.lower_char is_lower_alnum) by
    (done || intros c Hc; by apply lower_alnum_fixed).
  rewrite (str_map_fixed _ is_lower_alnum) by
    (done || intros c Hc; by destruct (lower_alnum_fixed c Hc) as [_ ->]).
  by apply str_filter_fixed.
Qed.

(** X1.  A normalized name is made of the characters [a-z0-9] only, and
    normalizing it again changes nothing. *)
Theorem normalize_idempotent (name : string) :
  Str.all is_lower_alnum (normalize_artist_name name) = true
  /\ normalize_artist_name (normalize_artist_name name)
     = normalize_artist_name name.
Proof.
  assert (Str.all is_lower_alnum (normalize_artist_name name) = true) as H
    by apply str_filter_all.
  split; [exact H|]. by apply normalize_fixed.
Qed.

Lemma normalize_char_lower (c : ascii) :
  (if Ascii.eqb (Str.lower_char (Str.lower_char c)) "$" then "s"%char
   else Str.lower_char (Str.lower_char c))
  = (if Ascii.eqb (Str.lower_char c) "$" then "s"%char else Str.lower_char c).
Proof. destruct c as [[] [] [] [] [] [] [] []]; reflexivity. Qed.

Lemma normalize_char_dollar (c : ascii) :
  (if Ascii.eqb (Str.lower_char (if Ascii.eqb c "$" then "s"%char else c)) "$"
   then "s"%char
   else Str.lower_char (if Ascii.eqb c "$" then "s"%char else c))
  = (if Ascii.eqb (Str.lower_char c) "$" then "s"%char else Str.lower_char c).
Proof. destruct c as [[] [] [] [] [] [] [] []]; reflexivity. Qed.

(** X2.  Names that differ only by the case of their letters, or by a
    dollar sign written for the letter s, have the same normalized form;
    and the normalized form of a concatenation is the concatenation of the
    normalized forms, so what is dropped between two parts does not
    matter. *)
Theorem normalize_collisions (name other : string) :
  normalize_artist_name (Str.lower name) = normalize_artist_name name
  /\ normalize_artist_name (Str.replace_char "$" "s" name)
     = normalize_artist_name name
  /\ normalize_artist_name (name +:+ other)
     = normalize_artist_name name +:+ normalize_artist_name other.
Proof.
  unfold normalize_artist_name, Str.lower, Str.replace_char.
  rewrite !str_map_map. repeat split.
  - f_equal. induction name as [|c name IH]; simpl; [done|].
    by rewrite normalize_char_lower, IH.
  - f_equal. induction name as [|c name IH]; simpl; [done|].
    by rewrite normalize_char_dollar, IH.
  - induction name as [|c name IH]; simpl; [done|].
    destruct (is_lower_alnum _); simpl; by rewrite IH.
Qed.

Lemma filename_char_plain (c : ascii) :
  is_filename_char c = true ->
  Ascii.eqb c "$" = false /\ Ascii.eqb c " " = false
  /\ Ascii.eqb c "/" = false.
Proof.
  destruct c as [[] [] [] [] [] [] [] []]; first [discriminate | by repeat split].
Qed.

(** X4.  A sanitized file name is made of the characters [A-Za-z0-9_.-]
    only (so it holds no slash, no space and no dollar sign); a name that
    is already made of these characters is left as it is, and sanitizing
    twice is sanitizing once. *)
Theorem sanitize_filename_safe (filename : string) :
  Str.all is_filename_char (sanitize_filename filename) = true
  /\ Str.all (fun c => negb (Ascii.eqb c "/")) (sanitize_filename filename)
     = true
  /\ (Str.all is_filename_char filename = true ->
      sanitize_filename filename = filename)
  /\ sanitize_filename (sanitize_filename filename)
     = sanitize_filename filename.
Proof.
  assert (forall f, Str.all is_filename_char f = true ->
                    sanitize_filename f = f) as Hfixed.
  { intros f Hf. unfold sanitize_filename, Str.replace_char, Str.remove_char.
    rewrite (str_map_fixed _ is_filename_char) by
      (done || intros c Hc; by destruct (filename_char_plain c Hc) as [-> _]).
    rewrite (str_filter_fixed (fun c => negb (Ascii.eqb c " "))).
    - by apply str_filter_fixed.
    - eapply str_all_impl; [|exact Hf].
      intros c Hc. by destruct (filename_char_plain c Hc) as (_ & -> & _). }
  assert (Str.all is_filename_char (sanitize_filename filename) = true) as H
    by apply str_filter_all.
  split; [exact H|]. split.
  - eapply str_all_impl; [|exact H].
    intros c Hc. by destruct (filename_char_plain c Hc) as (_ & _ & ->).
  - split; [apply Hfixed|by apply Hfixed].
Qed.

(** ** URLs (main.py, lines 45-51) *)

Lemma clean_url_canonical (id : string) :
  String.length id = 44%nat -> Str.all is_id_char id = true ->
  clean_url (SHEET_PREFIX +:+ id +:+ "/") = Some (SHEET_PREFIX +:+ id +:+ "/").
Proof.
  intros Hlen Hall. unfold clean_url.
  assert (Re.search clean_url_re (SHEET_PREFIX +:+ id +:+ "/") = Some id)
    as ->; [|done].
  apply search_here, match_here_iff. by exists "/".
Qed.

(** X5.  A canonical URL is a fixed point of [clean_url]: cleaning what
    [clean_url] returned gives the same URL back. *)
Theorem clean_url_idempotent (url c : string) :
  clean_url url = Some c -> clean_url c = Some c.
Proof.
  intros Hc. pose proof Hc as Hc'. unfold clean_url in Hc'.
  destruct (Re.search clean_url_re url) as [id|] eqn:Hs; [|done].
  injection Hc' as <-.
  apply search_some_iff in Hs as (pre & rest & _ & Hlen & Hall & _).
  by apply clean_url_canonical.
Qed.

Lemma clean_url_idempotent_witness :
  clean_url sample_url = Some sample_canonical
  /\ clean_url sample_canonical = Some sample_canonical.
Proof.
  split; [reflexivity|].
  apply (clean_url_idempotent sample_url sample_canonical). reflexivity.
Defined.

(** X6.  What [extract_sheet_id] returns is 44 characters of
    [a-zA-Z0-9-_] that stand in the URL between "/d/" and a slash; a URL
    without such a part gives [None]. *)
Theorem extract_sheet_id_sound (url : string) :
  match extract_sheet_id url with
  | Some id =>
      String.length id = 44%nat
      /\ Str.all is_id_char id = true
      /\ exists pre post, url = pre +:+ "/d/" +:+ id +:+ "/" +:+ post
  | None =>
      forall pre id post,
        url = pre +:+ "/d/" +:+ id +:+ "/" +:+ post ->
        String.length id = 44%nat -> Str.all is_id_char id = false
  end.
Proof.
  unfold extract_sheet_id.
  destruct (Re.search sheet_id_re url) as [id|] eqn:Hs.
  - apply search_some_iff in Hs as (pre & rest & Heq & Hlen & Hall & _).
    repeat split; [done..|]. by exists pre, rest.
  - intros pre id post Heq Hlen.
    destruct (Str.all is_id_char id) eqn:Hall; [exfalso|done].
    rewrite search_none_iff in Hs.
    specialize (Hs pre ("/d/" +:+ id +:+ "/" +:+ post) Heq).
    assert (Re.match_here sheet_id_re ("/d/" +:+ id +:+ "/" +:+ post)
            = Some id) as Hm by (apply match_here_iff; by exists post).
    congruence.
Qed.

(** ** Catalog Fetcher (main.py, lines 165-175) *)

Lemma includes_entry (r : list (string * pyval)) (k u : string) :
  includes r k u -> catalog_entry (k, u).
Proof.
  intros (best & name & raw & _ & _ & _ & <- & Hne & _ & Hc).
  unfold clean_url in Hc.
  destruct (Re.search clean_url_re raw) as [id|] eqn:Hs; [|done].
  injection Hc as <-.
  apply search_some_iff in Hs as (pre & rest & _ & Hlen & Hall & _).
  repeat split; [done|apply str_filter_all|].
  exists id. repeat split; [done..|]. by apply extract_sheet_id_canonical.
Qed.

Lemma parse_rows_entries (rows : list (list (string * pyval)))
    (acc res : list (string * string)) :
  Dict.wf acc -> Forall catalog_entry acc ->
  parse_rows acc rows = ok res ->
  Dict.wf res /\ Forall catalog_entry res.
Proof.
  revert acc. induction rows as [|r rows IH]; intros acc Hwf Hacc; simpl.
  - by intros [= <-].
  - destruct (parse_row acc r) as [e|acc1] eqn:Hrow; simpl; [done|].
    apply parse_row_inv in Hrow as [(a & u & Hinc & ->)|[_ ->]].
    + apply IH; [by apply dict_set_wf|].
      apply dict_set_Forall; [done|by eapply includes_entry].
    + by apply IH.
Qed.

(** X7.  A catalog that [parse_csv] returns is a dictionary with distinct
    names, each of them non-empty and made of [a-z0-9], and each mapped to
    a canonical URL (prefix, 44 identifier characters, slash) from which
    [extract_sheet_id] reads the identifier back: for a fetched catalog
    the "Invalid URL" branch of [run_once] is never taken. *)
Theorem parse_csv_catalog (reader : string -> list (list (string * pyval)) * option exn)
    (text : string) (res : list (string * string)) :
  parse_csv reader text = ok res ->
  Dict.wf res /\ Forall catalog_entry res.
Proof.
  unfold parse_csv. destruct (reader text) as [rows failure].
  destruct (parse_rows [] rows) as [e|res'] eqn:Hrows; simpl; [done|].
  destruct failure; simpl; [done|]. intros [= <-].
  apply (parse_rows_entries rows [] res'); [apply NoDup_nil_2|constructor|done].
Qed.

Lemma parse_csv_catalog_witness :
  parse_csv sample_reader "payload" = ok [("jssmith", sample_canonical)]
  /\ Dict.wf [("jssmith", sample_canonical)]
  /\ Forall catalog_entry [("jssmith", sample_canonical)].
Proof.
  split; [reflexivity|].
  apply (parse_csv_catalog sample_reader "payload"). reflexivity.
Defined.

(** Whether a row raises does not depend on the rows before it. *)
Lemma parse_row_throw_any (acc acc' : list (string * string))
    (r : list (string * pyval)) (e : exn) :
  parse_row acc r = throw e -> parse_row acc' r = throw e.
Proof.
  unfold parse_row.
  destruct (best_of r) as [e0|best]; simpl; [done|].
  destruct (negb (String.eqb best "yes")); [done|].
  destruct (artist_of r) as [e1|artist]; simpl; [done|].
  destruct (url_of r) as [e2|[u|]]; simpl; [done| |done].
  by destruct (negb (String.eqb artist "")).
Qed.

(** X8.  One row on which the loop raises (a selected row without its
    "Artist Name" or "URL" cell, or a row whose "Best" cell is [None])
    makes [parse_csv] raise: the row is not skipped, and no mapping is
    returned for the rows that were well formed. *)
Theorem parse_csv_row_raises (reader : string -> list (list (string * pyval)) * option exn)
    (text : string) (r : list (string * pyval)) (e : exn) :
  r ∈ fst (reader text) ->
  parse_row [] r = throw e ->
  exists e', parse_csv reader text = throw e'.
Proof.
  intros Hin Hrow. unfold parse_csv.
  destruct (reader text) as [rows failure]. simpl in *.
  destruct (parse_rows [] rows) as [e'|res] eqn:Hrows; simpl; [by exists e'|].
  destruct (parse_rows_elem _ _ _ _ Hrows Hin) as (acc1 & acc2 & Hok).
  rewrite (parse_row_throw_any _ acc1 _ _ Hrow) in Hok. done.
Qed.

Lemma parse_csv_row_raises_witness :
  short_row ∈ fst (short_reader "payload")
  /\ parse_row [] short_row = throw TypeError
  /\ exists e', parse_csv short_reader "payload" = throw e'.
Proof.
  assert (short_row ∈ fst (short_reader "payload")) as Hin
    by (right; left).
  split; [exact Hin|]. split; [reflexivity|].
  exact (parse_csv_row_raises short_reader "payload" short_row TypeError
           Hin eq_refl).
Defined.

(** ** Change Detector (main.py, lines 184-210) *)

Lemma to_update_lookup_witness :
  Dict.wf remote_two
  /\ (Dict.get "beta" (to_update remote_two cached_one) = Some "u2" <->
      Dict.get "beta" remote_two = Some "u2"
      /\ Dict.get "beta" cached_one <> Some "u2").
Proof.
  assert (Dict.wf remote_two) as Hwf.
  { unfold Dict.wf. simpl. apply NoDup_cons. split.
    - intros [=]%list_elem_of_singleton.
    - apply NoDup_singleton. }
  split; [exact Hwf|].
  exact (to_update_lookup remote_two cached_one "beta" "u2" Hwf).
Defined.

Lemma filter_all_true {A} (f : A -> bool) (l : list A) :
  (forall x, x ∈ l -> f x = true) -> List.filter f l = l.
Proof.
  induction l as [|a l IH]; simpl; [done|]. intros H.
  rewrite (H a) by left. f_equal. apply IH. intros x Hx. apply H. by right.
Qed.

(** X10.  Without a cache file the cached catalog is empty and every
    entry of the remote catalog is an update, in the order of the remote
    catalog: the first cycle downloads everything. *)
Theorem to_update_no_cache (remote : list (string * string)) (w : world) :
  Dict.wf remote -> cache w = None ->
  exists cached,
    load_cached_csv w = (ok cached, w) /\ to_update remote cached = remote.
Proof.
  intros Hwf Hnone. exists []. unfold load_cached_csv. io_unfold.
  rewrite Hnone. split; [done|].
  rewrite to_update_filter by done. by apply filter_all_true.
Qed.

Lemma to_update_no_cache_witness :
  Dict.wf remote_two /\ cache empty_world = None
  /\ exists cached,
       load_cached_csv empty_world = (ok cached, empty_world)
       /\ to_update remote_two cached = remote_two.
Proof.
  assert (Dict.wf remote_two) as Hwf.
  { unfold Dict.wf. simpl. apply NoDup_cons. split.
    - intros [=]%list_elem_of_singleton.
    - apply NoDup_singleton. }
  split; [exact Hwf|]. split; [reflexivity|].
  exact (to_update_no_cache remote_two empty_world Hwf eq_refl).
Defined.

(** ** File metadata (main.py, lines 63-78) *)

Lemma as_loaded_strings (d : list (string * pyval)) :
  Forall (fun kv => exists s, snd kv = PStr s) d -> map as_loaded d = d.
Proof.
  induction 1 as [|[k v] d [s Hs] _ IH]; simpl; [done|].
  simpl in Hs. subst v. by rewrite IH.
Qed.

(** X11.  What [save_metadata] writes, [load_metadata] reads back: for a
    record with distinct keys whose keys hold no colon and whose keys and
    values hold no line break, loading after saving gives the saved items
    in the same order, each value as the string it was written as (the
    same record when it holds strings only); no other file is touched. *)
Theorem save_load_metadata (file_path : string) (d : list (string * pyval))
    (w : world) :
  Dict.wf d -> Forall line_safe d ->
  exists w1,
    save_metadata file_path d w = (ok tt, w1)
    /\ load_metadata file_path w1 = (ok (map as_loaded d), w1)
    /\ (Forall (fun kv => exists s, snd kv = PStr s) d ->
        load_metadata file_path w1 = (ok d, w1))
    /\ (forall p, p <> get_metadata_path file_path ->
                  files w1 !! p = files w !! p).
Proof.
  intros Hwf Hsafe. unfold save_metadata, write_file, load_metadata.
  rewrite metadata_path_is_file. io_unfold. eexists. split; [reflexivity|].
  assert (read_metadata
            (<[get_metadata_path file_path := format_metadata d]> (files w))
            file_path = map as_loaded d) as Hread.
  { unfold read_metadata. rewrite lookup_insert_eq.
    by apply parse_format_metadata. }
  simpl. rewrite Hread. repeat split.
  - intros Hstr. by rewrite as_loaded_strings.
  - intros p Hp. by rewrite lookup_insert_ne.
Qed.

Lemma save_load_metadata_witness :
  Dict.wf sample_record /\ Forall line_safe sample_record
  /\ exists w1,
       save_metadata "downloads/a/song.mp3" sample_record empty_world
       = (ok tt, w1)
       /\ load_metadata "downloads/a/song.mp3" w1
          = (ok [("sha256", PStr "c0ffee"); ("lastarchive", PStr "2026-11-03");
                 ("origin", PStr "None")], w1).
Proof.
  assert (Dict.wf sample_record) as Hwf.
  { unfold Dict.wf. simpl. repeat (apply NoDup_cons; split);
      [rewrite !elem_of_cons, elem_of_nil; intros [[=]|[[=]|[]]]
      |intros [=]%list_elem_of_singleton
      |apply not_elem_of_nil|apply NoDup_nil_2]. }
  assert (Forall line_safe sample_record) as Hsafe
    by (repeat constructor).
  split; [exact Hwf|]. split; [exact Hsafe|].
  destruct (save_load_metadata "downloads/a/song.mp3" sample_record
              empty_world Hwf Hsafe) as (w1 & H1 & H2 & _).
  exists w1. split; [exact H1|exact H2].
Defined.

(** X12.  Saving the record that [load_metadata] has just returned and
    loading it again gives the same record, whatever the sidecar held
    (lines without a colon, repeated keys): the rewriting of a sidecar
    loses nothing that the program reads. *)
Theorem load_save_load_metadata (file_path : string) (w : world) :
  exists w1,
    save_metadata file_path (read_metadata (files w) file_path) w
    = (ok tt, w1)
    /\ load_metadata file_path w1
       = (ok (read_metadata (files w) file_path), w1).
Proof.
  assert (Dict.wf (read_metadata (files w) file_path)
          /\ Forall (fun kv => line_safe kv /\ exists s, snd kv = PStr s)
                    (read_metadata (files w) file_path)) as [Hwf Hall].
  { unfold read_metadata.
    destruct (files w !! get_metadata_path file_path) as [text|].
    - apply parse_metadata_inv.
    - split; [apply NoDup_nil_2|constructor]. }
  unfold save_metadata, write_file, load_metadata.
  rewrite metadata_path_is_file. io_unfold. eexists. split; [reflexivity|].
  simpl. f_equal. f_equal.
  unfold read_metadata at 1. rewrite lookup_insert_eq.
  rewrite parse_format_metadata.
  - apply as_loaded_strings. eapply Forall_impl; [exact Hall|].
    by intros kv [_ ?].
  - done.
  - eapply Forall_impl; [exact Hall|]. by intros kv [? _].
Qed.

(** ** The archive decision (main.py, lines 80-85) *)

Lemma strptime_valid (v : pyval) (d : date) :
  strptime v = ok d -> valid_date d = true.
Proof.
  unfold strptime. intros H.
  repeat match type of H with
         | context [match ?x with _ => _ end] =>
             destruct x eqn:?; try discriminate H
         end.
  by injection H as <-.
Qed.

(** X13.  For a date that the program wrote (a calendar date with a year
    of four digits, in the form of [strftime]), a file is due exactly when
    that date is strictly before the date of the day. *)
Theorem should_archive_today_written (today d : date) :
  valid_date d = true -> 1000 <= year d ->
  should_archive_today today (PStr (strftime d)) = date_gt today d.
Proof.
  intros Hvalid Hyear. unfold should_archive_today.
  by rewrite strptime_strftime.
Qed.

Lemma should_archive_today_written_witness :
  valid_date day_3_nov = true /\ 1000 <= year day_3_nov
  /\ should_archive_today (Date 2026 11 4) (PStr (strftime day_3_nov))
     = date_gt (Date 2026 11 4) day_3_nov.
Proof.
  split; [reflexivity|]. split; [simpl; lia|].
  apply (should_archive_today_written (Date 2026 11 4) day_3_nov);
    [reflexivity|simpl; lia].
Defined.

(** X14.  A file is skipped only when the stored [lastarchive] is a
    string that reads as a date of the calendar which is not before the
    date of the day; a missing value, [None], a malformed string or an
    impossible date all make the file due. *)
Theorem should_archive_today_false (today : date) (lastarchive : pyval) :
  should_archive_today today lastarchive = false ->
  exists s d,
    lastarchive = PStr s /\ strptime (PStr s) = ok d
    /\ valid_date d = true /\ date_gt today d = false.
Proof.
  unfold should_archive_today.
  destruct (strptime lastarchive) as [e|d] eqn:Hparse; simpl; [done|].
  intros Hgt. destruct lastarchive as [s|]; [|done].
  exists s, d. repeat split; [done| |done]. by eapply strptime_valid.
Qed.

Lemma should_archive_today_false_witness :
  should_archive_today day_3_nov (PStr "2026-11-3") = false
  /\ exists s d,
       PStr "2026-11-3" = PStr s /\ strptime (PStr s) = ok d
       /\ valid_date d = true /\ date_gt day_3_nov d = false.
Proof.
  split; [reflexivity|].
  apply (should_archive_today_false day_3_nov (PStr "2026-11-3")).
  reflexivity.
Defined.

(** ** Archive Throttler (main.py, lines 87-110) *)

Lemma archive_file_once_per_day_witness :
  hex_digest (sample_env (ok "archived") 200)
  /\ wayback_save (sample_env (ok "archived") 200) "public" = ok "archived"
  /\ archive_file (sample_env (ok "archived") 200) "downloads/a/song.mp3"
       "public"
       (snd (archive_file (sample_env (ok "archived") 200)
               "downloads/a/song.mp3" "public" archived_before))
     = (ok tt,
        snd (archive_file (sample_env (ok "archived") 200)
               "downloads/a/song.mp3" "public" archived_before)).
Proof.
  assert (hex_digest (sample_env (ok "archived") 200)) as H0
    by (intros data; reflexivity).
  split; [exact H0|]. split; [reflexivity|].
  apply (archive_file_once_per_day (sample_env (ok "archived") 200)
           "downloads/a/song.mp3" "public" archived_before "archived").
  - exact H0.
  - by vm_compute.
  - reflexivity.
  - by vm_compute.
  - by vm_compute.
  - reflexivity.
  - by vm_compute.
Defined.



(** X17.  Whatever the clock, the sidecar and the archive service do,
    [archive_file] writes no file but the sidecar of the file it is given:
    the file itself, every other file, the catalog cache and the failure
    log are left as they were. *)
Theorem archive_file_frame (E : env) (file_path public_url : string)
    (w : world) :
  (forall p, p <> get_metadata_path file_path ->
             files (snd (archive_file E file_path public_url w)) !! p
             = files w !! p)
  /\ cache (snd (archive_file E file_path public_url w)) = cache w
  /\ down_log (snd (archive_file E file_path public_url w)) = down_log w.
Proof.
  destruct (should_archive_today (date_of E (now w))
              (default PNone
                 (Dict.get "lastarchive"
                    (read_metadata (files w) file_path)))) eqn:Hdue.
  - destruct (wayback_save E public_url) as [e|archive_url] eqn:Hsave.
    + unfold archive_file, load_metadata, sha256_of_file, today, sleep,
        wayback.
      io_unfold. simpl. rewrite Hdue. simpl. rewrite Hsave. simpl.
      by repeat split.
    + rewrite (archive_file_success_out _ _ _ _ _ Hdue Hsave). simpl.
      repeat split. intros p Hp. by rewrite lookup_insert_ne.
  - rewrite (archive_file_not_due _ _ _ _ Hdue). by repeat split.
Qed.

Lemma randint_7_13_bounds (E : env) : 7 <= randint_7_13 E <= 13.
Proof.
  unfold randint_7_13.
  assert (0 <= random_draw E mod 7 < 7) by (apply Z.mod_pos_bound; lia).
  lia.
Qed.

(** X18.  One run of [archive_file] either does nothing outside (the file
    is not due), or sleeps once, for a whole number of minutes from 7 to
    13, and then calls the archive service once with the public URL: the
    service is never called without the delay before it, and never
    twice. *)
Theorem archive_file_calls (E : env) (file_path public_url : string)
    (w : world) :
  (trace (snd (archive_file E file_path public_url w)) = trace w
   /\ now (snd (archive_file E file_path public_url w)) = now w)
  \/ (exists minutes,
        7 <= minutes <= 13
        /\ trace (snd (archive_file E file_path public_url w))
           = trace w ++ [Sleep (minutes * 60); Archive public_url]
        /\ now (snd (archive_file E file_path public_url w))
           = now w + minutes * 60).
Proof.
  destruct (should_archive_today (date_of E (now w))
              (default PNone
                 (Dict.get "lastarchive"
                    (read_metadata (files w) file_path)))) eqn:Hdue.
  - right. exists (randint_7_13 E). split; [apply randint_7_13_bounds|].
    destruct (wayback_save E public_url) as [e|archive_url] eqn:Hsave.
    + unfold archive_file, load_metadata, sha256_of_file, today, sleep,
        wayback.
      io_unfold. simpl. rewrite Hdue. simpl. rewrite Hsave. simpl.
      by rewrite <- app_assoc.
    + by rewrite (archive_file_success_out _ _ _ _ _ Hdue Hsave).
  - left. by rewrite (archive_file_not_due _ _ _ _ Hdue).
Qed.

(** ** Export Downloader (main.py, lines 112-163) *)

Section OnlyChanges.
Variable P : string -> Prop.










End OnlyChanges.

Lemma extract_members_cons (artist_dir member : string) (stored : zip_member)
    (rest : list (string * zip_member)) :
  extract_members artist_dir ((member, stored) :: rest)
  = if String.eqb (basename member) "" then extract_members artist_dir rest
    else match stored with
         | Unopenable => raise BadZipFile
         | Unreadable =>
             write_file
               (path_join artist_dir (sanitize_filename (basename member))) "";;
             raise BadZipFile
         | Stored data =>
             write_file
               (path_join artist_dir (sanitize_filename (basename member)))
               data;;
             extract_members artist_dir rest
         end.
Proof. reflexivity. Qed.





(** X20.  Extraction goes through the members in order and stops at the
    first one that fails: the members of a list followed by another are
    extracted as the first list and then, only when nothing raised, the
    second; what was written before the failure stays on disk, and the
    members after it are not looked at. *)
Theorem extract_members_app (artist_dir : string)
    (members1 members2 : list (string * zip_member)) (w : world) :
  extract_members artist_dir (members1 ++ members2) w
  = match extract_members artist_dir members1 w with
    | (inr _, w1) => extract_members artist_dir members2 w1
    | (inl e, w1) => (inl e, w1)
    end.
Proof.
  revert w. induction members1 as [|[member stored] members1 IH]; intros w.
  - reflexivity.
  - rewrite <- app_comm_cons, !extract_members_cons.
    destruct (String.eqb (basename member) ""); [apply IH|].
    destruct stored as [| |data]; io_unfold.
    + reflexivity.
    + by destruct (write_file _ "" w) as [[e|[]] w1].
    + destruct (write_file _ data w) as [[e|[]] w1]; [reflexivity|apply IH].
Qed.

Lemma str_app_empty (s : string) : s +:+ "" = s.
Proof. induction s as [|c s IH]; [reflexivity|]. simpl. by rewrite IH. Qed.

Lemma ends_with_slash_has_slash (p : string) :
  ends_with_slash p = true ->
  Str.all (fun x => negb (Ascii.eqb x "/")) p = false.
Proof.
  induction p as [|c p IH]; [done|]. simpl.
  destruct p as [|c' p'].
  - intros ->. reflexivity.
  - intros H. rewrite (IH H). apply andb_false_r.
Qed.

Lemma basename_ends_slash (p : string) :
  ends_with_slash p = true -> basename p = "".
Proof.
  induction p as [|c p IH]; [done|]. simpl.
  destruct p as [|c' p'].
  - intros ->. reflexivity.
  - intros H. rewrite (ends_with_slash_has_slash _ H). by apply IH.
Qed.

Lemma basename_app_slash (p : string) : basename (p +:+ "/") = "".
Proof.
  apply basename_ends_slash.
  induction p as [|c p IH]; [done|]. simpl.
  destruct (p +:+ "/") eqn:E; [by destruct p|]. exact IH.
Qed.

(** The base name of a path made by [os.path.join] from a directory and a
    name without slash is that name. *)
Lemma basename_path_join (dir name : string) :
  Str.all (fun x => negb (Ascii.eqb x "/")) name = true ->
  basename (path_join dir name) = name.
Proof.
  intros Hname. unfold path_join.
  assert (match name with
          | String "/" _ => False
          | _ => True
          end) as Hfirst.
  { destruct name as [|c name]; [done|]. simpl in Hname.
    apply andb_true_iff in Hname as [Hc _].
    destruct c as [[] [] [] [] [] [] [] []]; done. }
  assert (basename (if String.eqb dir "" || ends_with_slash dir
                    then dir +:+ name else dir +:+ "/" +:+ name) = name)
    as Hjoin.
  { destruct name as [|c name].
    - rewrite !str_app_empty.
      destruct (String.eqb_spec dir "") as [->|Hne]; [done|]. simpl.
      destruct (ends_with_slash dir) eqn:Hs.
      + by apply basename_ends_slash.
      + apply basename_app_slash.
    - destruct (String.eqb_spec dir "") as [->|Hne]; cbn [orb].
      + exact (basename_app "" (String c name) Hname ltac:(done)).
      + destruct (ends_with_slash dir) eqn:Hs.
        * rewrite basename_app by done. by rewrite basename_ends_slash.
        * rewrite <- str_app_assoc, basename_app by done.
          by rewrite basename_app_slash. }
  destruct name as [|c name]; [exact Hjoin|].
  destruct c as [[] [] [] [] [] [] [] []]; try exact Hjoin. done.
Qed.

(** X21.  A member whose base name is not empty but is sanitized to the
    empty string, to "." or to ".." is not skipped: opening its target
    raises, nothing is written for it, and the members after it are not
    extracted. *)
Theorem extract_members_unsafe_name (artist_dir member data : string)
    (rest : list (string * zip_member)) (w : world) :
  basename member <> "" ->
  sanitize_filename (basename member) = ""
  \/ sanitize_filename (basename member) = "."
  \/ sanitize_filename (basename member) = ".." ->
  extract_members artist_dir ((member, Stored data) :: rest) w
  = (throw OSError, w).
Proof.
  intros Hbase Hname. rewrite extract_members_cons.
  destruct (String.eqb_spec (basename member) ""); [done|].
  assert (names_directory
            (path_join artist_dir (sanitize_filename (basename member)))
          = true) as Hdir.
  { unfold names_directory.
    destruct Hname as [-> | [-> | ->]]; by rewrite basename_path_join. }
  unfold write_file. rewrite Hdir. reflexivity.
Qed.

Lemma extract_members_unsafe_name_witness :
  basename "cover/(!)" <> ""
  /\ (sanitize_filename (basename "cover/(!)") = ""
      \/ sanitize_filename (basename "cover/(!)") = "."
      \/ sanitize_filename (basename "cover/(!)") = "..")
  /\ extract_members "downloads/a"
       [("cover/(!)", Stored "data"); ("later.txt", Stored "more")]
       empty_world
     = (throw OSError, empty_world).
Proof.
  split; [done|]. split; [by left|].
  apply (extract_members_unsafe_name "downloads/a" "cover/(!)" "data"
           [("later.txt", Stored "more")] empty_world); [done|by left].
Defined.

Example extract_members_broken :
  extract_members "downloads/a" broken_members empty_world
  = (throw BadZipFile,
     set_files (<["downloads/a/FirstTrack.mp3" := "one"]> ∅) empty_world).
Proof. reflexivity. Qed.


(** ** The cycle (main.py, lines 194-243) *)

Lemma run_once_saves_remote_witness :
  fetch_remote (sample_env (ok "archived") 200) cached_world
  = (ok [("jssmith", sample_canonical)],
     emit (Get REMOTE_CSV_URL) cached_world)
  /\ fst (run_once (sample_env (ok "archived") 200) cached_world) = ok tt
  /\ cache (snd (run_once (sample_env (ok "archived") 200) cached_world))
     = Some [("jssmith", sample_canonical)].
Proof.
  split; [reflexivity|].
  apply (run_once_saves_remote (sample_env (ok "archived") 200) cached_world
           (emit (Get REMOTE_CSV_URL) cached_world)).
  reflexivity.
Defined.

Lemma fetch_remote_out (E : env) (w : world) :
  fetch_remote E w = (fetched E, emit (Get REMOTE_CSV_URL) w).
Proof.
  unfold fetch_remote, fetched, requests_get, raise_for_status. io_unfold.
  simpl. destruct (http_get E REMOTE_CSV_URL) as [r|]; simpl; [|done].
  by destruct ((400 <=? status_code r) && (status_code r <? 600)).
Qed.

Lemma fetched_wf (E : env) (remote_data : list (string * string)) :
  fetched E = ok remote_data -> Dict.wf remote_data.
Proof.
  unfold fetched, parse_csv.
  destruct (http_get E REMOTE_CSV_URL) as [r|]; [|done].
  destruct ((400 <=? status_code r) && (status_code r <? 600)); [done|].
  destruct (dict_reader E (content r)) as [rows failure].
  destruct (parse_rows [] rows) as [e|res] eqn:Hrows; simpl; [done|].
  destruct failure; simpl; [done|]. intros [= <-].
  by apply (parse_rows_entries rows [] res); [apply NoDup_nil_2|constructor|].
Qed.

Lemma to_update_same (remote : list (string * string)) :
  Dict.wf remote -> to_update remote remote = [].
Proof.
  intros Hwf. rewrite to_update_filter by done. apply filter_nil_iff.
  intros [k v] Hin. apply changed_false_iff. by apply dict_elem_get.
Qed.

(** X24.  A cycle that fetches the catalog which the cache already holds
    does nothing but the request: no download, no thread, and the world
    is what it was (the cache is rewritten with the same content).  With
    X23 this makes a second cycle after a completed one idle as long as
    the source does not change. *)
Theorem run_once_unchanged (E : env) (w : world)
    (remote_data : list (string * string)) :
  fetched E = ok remote_data ->
  cache w = Some remote_data ->
  run_once E w = (ok tt, emit (Get REMOTE_CSV_URL) w).
Proof.
  intros Hfetch Hcache. pose proof (fetched_wf E remote_data Hfetch) as Hwf.
  unfold run_once, load_cached_csv, save_csv. io_unfold.
  rewrite fetch_remote_out, Hfetch. simpl. rewrite Hcache.
  rewrite dict_of_items_wf, to_update_same by done.
  unfold set_cache, emit. simpl. by rewrite Hcache.
Qed.

Lemma run_once_unchanged_witness :
  fetched (sample_env (ok "archived") 200)
  = ok [("jssmith", sample_canonical)]
  /\ run_once (sample_env (ok "archived") 200)
       (snd (run_once (sample_env (ok "archived") 200) cached_world))
     = (ok tt,
        emit (Get REMOTE_CSV_URL)
          (snd (run_once (sample_env (ok "archived") 200) cached_world))).
Proof.
  split; [reflexivity|].
  apply (run_once_unchanged (sample_env (ok "archived") 200) _
           [("jssmith", sample_canonical)]); by vm_compute.
Defined.

Lemma download_exports_trace (E : env) (sheet_id artist_dir : string)
    (w : world) :
  exists w1,
    download_exports E sheet_id artist_dir w = (ok tt, w1)
    /\ trace w1
       = trace w ++ [Get (xlsx_url_of sheet_id); Get (zip_url_of sheet_id)].
Proof.
  unfold download_exports. io_unfold.
  destruct (download_xlsx_out E sheet_id artist_dir w)
    as (w1 & -> & _ & _ & Ht1 & _).
  destruct (download_zip_out E sheet_id artist_dir w1)
    as (w2 & -> & _ & _ & Ht2 & _).
  exists w2. split; [done|]. rewrite Ht2, Ht1. by rewrite <- app_assoc.
Qed.

Lemma update_all_trace (E : env) (items : list (string * string))
    (tasks : list (string * string)) (w : world) :
  exists tasks' w1,
    update_all E items tasks w = (ok tasks', w1)
    /\ trace w1 = trace w ++ flat_map download_gets items.
Proof.
  revert tasks w. induction items as [|[artist url] items IH];
    intros tasks w; simpl.
  - exists tasks, w. by rewrite app_nil_r.
  - unfold download_gets at 1. simpl.
    destruct (extract_sheet_id url) as [sheet_id|]; [|apply IH].
    io_unfold.
    destruct (download_exports_trace E sheet_id (path_join EXPORT_DIR artist) w)
      as (w1 & -> & Ht1).
    destruct (IH (tasks ++
                  map (fun filename =>
                         (path_join (path_join EXPORT_DIR artist) filename,
                          public_url_of E artist filename))
                      (listdir_files (files w1)
                         (path_join EXPORT_DIR artist))) w1)
      as (tasks' & w2 & Hout & Ht2).
    exists tasks', w2. split; [exact Hout|].
    rewrite Ht2, Ht1. by rewrite <- !app_assoc.
Qed.

Lemma start_threads_trace (tasks : list (string * string)) (w : world) :
  exists w1, start_threads tasks w = (ok tt, w1)
             /\ trace w1 = trace w ++ map spawn_event tasks.
Proof.
  revert w. induction tasks as [|[file_path public_url] tasks IH];
    intros w; simpl.
  - exists w. by rewrite app_nil_r.
  - io_unfold. destruct (IH (emit (Spawn file_path public_url) w))
      as (w1 & Hout & Ht).
    exists w1. split; [exact Hout|]. rewrite Ht. simpl.
    by rewrite <- app_assoc.
Qed.

(** X25.  In a cycle that fetches the catalog, what is done outside is,
    in this order: the request for the catalog; for each entry of the
    change set, in the order of the catalog, the XLSX request and then the
    ZIP request of its sheet; and only then the threads, one after the
    other.  Entries that did not change are not requested, and no download
    comes after a thread was started. *)
Theorem run_once_trace (E : env) (w : world)
    (remote_data : list (string * string)) :
  fetched E = ok remote_data ->
  exists tasks,
    trace (snd (run_once E w))
    = trace w ++ [Get REMOTE_CSV_URL]
      ++ flat_map download_gets (to_update remote_data (cached_catalog w))
      ++ map spawn_event tasks.
Proof.
  intros Hfetch. unfold run_once, load_cached_csv, save_csv. io_unfold.
  rewrite fetch_remote_out, Hfetch. simpl. fold (cached_catalog w).
  destruct (to_update remote_data (cached_catalog w)) as [|item items] eqn:Hup.
  - by exists [].
  - destruct (update_all_trace E (item :: items) []
                (emit (Get REMOTE_CSV_URL) w)) as (tasks & w1 & -> & Ht1).
    unfold ok. destruct (start_threads_trace tasks w1) as (w2 & -> & Ht2).
    exists tasks. unfold set_cache. simpl. rewrite Ht2, Ht1.
    simpl. by rewrite <- !app_assoc.
Qed.

Lemma run_once_trace_witness :
  fetched (sample_env (ok "archived") 200)
  = ok [("jssmith", sample_canonical)]
  /\ exists tasks,
       trace (snd (run_once (sample_env (ok "archived") 200) empty_world))
       = trace empty_world ++ [Get REMOTE_CSV_URL]
         ++ flat_map download_gets
              (to_update [("jssmith", sample_canonical)]
                 (cached_catalog empty_world))
         ++ map spawn_event tasks.
Proof.
  split; [reflexivity|].
  apply (run_once_trace (sample_env (ok "archived") 200) empty_world
           [("jssmith", sample_canonical)]).
  reflexivity.
Defined.

(** ** Browser (main.py, lines 253-315) *)


(** X28.  [do_GET] sends the page of an artist exactly when the path,
    stripped and unquoted, is not empty, is not "index", "index.html" or
    "down", holds no slash, and names a directory of the export
    directory: a directory called "index" or "down" is never shown, the
    list of artists and the failure log answer in its place. *)
Theorem do_GET_artist_iff (S : server) (request_path artist artist_dir : string) :
  do_GET S request_path = ArtistFilesPage artist artist_dir <->
  artist = unquote S (strip_slash (url_path S request_path))
  /\ artist_dir = path_join EXPORT_DIR artist
  /\ artist <> "" /\ artist <> "index" /\ artist <> "index.html"
  /\ artist <> "down"
  /\ no_slash artist = true
  /\ isdir S artist_dir = true.
Proof.
  unfold do_GET.
  set (path := unquote S (strip_slash (url_path S request_path))).
  split.
  - destruct (String.eqb_spec path "") as [|Hne]; [done|].
    destruct (String.eqb_spec path "index") as [|Hni]; [done|].
    destruct (String.eqb_spec path "index.html") as [|Hnh]; [done|].
    destruct (String.eqb_spec path "down") as [|Hnd];
      [by destruct (isfile S _)|].
    simpl. destruct (no_slash path) eqn:Hslash.
    + destruct (isdir S (path_join EXPORT_DIR path)) eqn:Hdir; [|done].
      by intros [= <- <-].
    + destruct (starts_with "downloads/" path); [|done].
      by destruct (isfile S _).
  - intros (-> & -> & Hne & Hni & Hnh & Hnd & Hslash & Hdir).
    destruct (String.eqb_spec path ""); [done|].
    destruct (String.eqb_spec path "index"); [done|].
    destruct (String.eqb_spec path "index.html"); [done|].
    destruct (String.eqb_spec path "down"); [done|].
    simpl. by rewrite Hslash, Hdir.
Qed.

(** ** The files handed to the threads (main.py, lines 220-240) *)

Lemma strip_dir_inv (dir path name : string) :
  strip_dir dir path = Some name ->
  path = dir +:+ "/" +:+ name /\ name <> "" /\ no_slash name = true.
Proof.
  unfold strip_dir, no_slash.
  destruct (Re.literal (dir +:+ "/") path) as [rest|] eqn:Hlit; [|done].
  apply literal_inv in Hlit. rewrite str_app_assoc in Hlit.
  destruct (String.eqb_spec rest "") as [|Hne]; simpl; [done|].
  destruct (Str.all _ rest) eqn:Hall; [|done].
  by intros [= <-].
Qed.

Lemma strip_dir_app (dir name : string) :
  name <> "" -> no_slash name = true ->
  strip_dir dir (dir +:+ "/" +:+ name) = Some name.
Proof.
  intros Hne Hslash. unfold strip_dir, no_slash in *.
  rewrite <- str_app_assoc, literal_app.
  destruct (String.eqb_spec name ""); [done|]. simpl. by rewrite Hslash.
Qed.

(** The names that [os.listdir] and [os.path.isfile] give for [dir] are
    the names of the files directly in [dir]. *)
Lemma listdir_files_iff (fs : gmap string string) (dir name : string) :
  name ∈ listdir_files fs dir <->
  is_Some (fs !! (dir +:+ "/" +:+ name)) /\ name <> ""
  /\ no_slash name = true.
Proof.
  unfold listdir_files. rewrite list_elem_of_omap. split.
  - intros ([path data] & Hin%elem_of_map_to_list & Hstrip). simpl in Hstrip.
    apply strip_dir_inv in Hstrip as (-> & Hne & Hslash). eauto.
  - intros ([data Hdata] & Hne & Hslash).
    exists (dir +:+ "/" +:+ name, data). split.
    + by apply elem_of_map_to_list.
    + by apply strip_dir_app.
Qed.

Lemma keeps_files_refl (w : world) : keeps_files w w.
Proof. by intros p Hp. Qed.

Lemma keeps_files_same (w w' : world) :
  files w' = files w -> keeps_files w w'.
Proof. intros Heq p Hp. by rewrite Heq. Qed.

Lemma keeps_files_trans (w1 w2 w3 : world) :
  keeps_files w1 w2 -> keeps_files w2 w3 -> keeps_files w1 w3.
Proof. intros H12 H23 p Hp. by apply H23, H12. Qed.

Lemma keeps_files_bind {A B} (m : io A) (f : A -> io B) :
  (forall w, keeps_files w (snd (m w))) ->
  (forall a w, keeps_files w (snd (f a w))) ->
  forall w, keeps_files w (snd (bind m f w)).
Proof.
  intros Hm Hf w. unfold bind. specialize (Hm w).
  destruct (m w) as [[e|a] w1]; simpl in *; [done|].
  eapply keeps_files_trans; [exact Hm|apply Hf].
Qed.

Lemma keeps_files_try {A} (m : io A) (handler : exn -> io A) :
  (forall w, keeps_files w (snd (m w))) ->
  (forall e w, keeps_files w (snd (handler e w))) ->
  forall w, keeps_files w (snd (try_except m handler w)).
Proof.
  intros Hm Hh w. unfold try_except. specialize (Hm w).
  destruct (m w) as [[e|a] w1]; simpl in *; [|done].
  eapply keeps_files_trans; [exact Hm|apply Hh].
Qed.

Lemma keeps_files_write (path data : string) (w : world) :
  keeps_files w (snd (write_file path data w)).
Proof.
  unfold write_file.
  destruct (names_directory path); io_unfold; simpl; [by intros p Hp|].
  intros p Hp. unfold set_files. simpl.
  destruct (decide (path = p)) as [->|Hne].
  - rewrite lookup_insert_eq. by eexists.
  - by rewrite lookup_insert_ne.
Qed.

Lemma keeps_files_extract (artist_dir : string)
    (members : list (string * zip_member)) (w : world) :
  keeps_files w (snd (extract_members artist_dir members w)).
Proof.
  revert w. induction members as [|[member stored] members IH]; intros w.
  - apply keeps_files_refl.
  - rewrite extract_members_cons.
    destruct (String.eqb (basename member) ""); [apply IH|].
    destruct stored as [| |data].
    + apply keeps_files_refl.
    + apply keeps_files_bind.
      * intros w0. apply keeps_files_write.
      * intros _ w0. apply keeps_files_refl.
    + apply keeps_files_bind.
      * intros w0. apply keeps_files_write.
      * intros _ w0. apply IH.
Qed.

(** A download never removes a file. *)
Lemma keeps_files_download (E : env) (sheet_id artist_dir : string)
    (w : world) :
  keeps_files w (snd (download_exports E sheet_id artist_dir w)).
Proof.
  assert (forall url e w0, keeps_files w0 (snd (log_if_unauthorized url e w0)))
    as Hlog.
  { intros url e w0. apply keeps_files_same.
    unfold log_if_unauthorized, log_down_host. io_unfold.
    destruct e as [| | | |status| | | | |]; try reflexivity.
    by destruct (status =? 401). }
  assert (forall url w0, keeps_files w0 (snd (requests_get E url w0))) as Hget.
  { intros url w0. apply keeps_files_same. unfold requests_get. io_unfold.
    simpl. by destruct (http_get E url). }
  assert (forall r w0, keeps_files w0 (snd (raise_for_status r w0))) as Hst.
  { intros r w0. apply keeps_files_same. unfold raise_for_status. io_unfold.
    by destruct ((400 <=? status_code r) && (status_code r <? 600)). }
  unfold download_exports, download_xlsx, download_zip.
  unfold mbind, io_bind.
  apply keeps_files_bind; [|intros _].
  - apply keeps_files_try; [|intros e; apply Hlog].
    apply keeps_files_bind; [apply Hget|intros r].
    apply keeps_files_bind; [apply Hst|intros _].
    intros w0. apply keeps_files_write.
  - apply keeps_files_try; [|intros e; apply Hlog].
    apply keeps_files_bind; [apply Hget|intros r].
    apply keeps_files_bind; [apply Hst|intros _].
    apply keeps_files_bind; [intros w0; apply keeps_files_write|intros _].
    apply keeps_files_bind; [intros w0; apply keeps_files_refl|intros stored].
    apply keeps_files_bind; [intros w0; apply keeps_files_refl|].
    intros members w0. apply keeps_files_extract.
Qed.

(** What [update_all] returns: the tasks it was given, and for each entry
    with a sheet identifier one task for each file of its directory. *)
Lemma update_all_tasks (E : env) (items : list (string * string))
    (tasks : list (string * string)) (w : world) :
  exists tasks' w1,
    update_all E items tasks w = (ok tasks', w1)
    /\ keeps_files w w1
    /\ (forall t, t ∈ tasks -> t ∈ tasks')
    /\ (forall artist url name,
          (artist, url) ∈ items -> is_Some (extract_sheet_id url) ->
          is_Some (files w !! (path_join EXPORT_DIR artist +:+ "/" +:+ name)) ->
          name <> "" -> no_slash name = true ->
          task_of E artist name ∈ tasks')
    /\ (forall t, t ∈ tasks' ->
          t ∈ tasks
          \/ exists artist url name,
               (artist, url) ∈ items /\ t = task_of E artist name
               /\ name <> "" /\ no_slash name = true
               /\ is_Some (files w1
                            !! (path_join EXPORT_DIR artist +:+ "/" +:+ name))).
Proof.
  revert tasks w. induction items as [|[artist url] items IH];
    intros tasks w; simpl.
  - exists tasks, w. split; [done|]. split; [apply keeps_files_refl|].
    split; [done|]. split.
    + by intros artist url name ?%elem_of_nil.
    + intros t Ht. by left.
  - destruct (extract_sheet_id url) as [sheet_id|] eqn:Hid.
    + io_unfold.
      pose proof (keeps_files_download E sheet_id
                    (path_join EXPORT_DIR artist) w) as Hkeep.
      destruct (download_exports_trace E sheet_id
                  (path_join EXPORT_DIR artist) w) as (w1 & Hout & _).
      rewrite Hout in *. simpl in Hkeep.
      destruct (IH (tasks ++
                    map (fun filename =>
                           (path_join (path_join EXPORT_DIR artist) filename,
                            public_url_of E artist filename))
                        (listdir_files (files w1)
                           (path_join EXPORT_DIR artist))) w1)
        as (tasks' & w2 & Hall & Hkeep2 & Hold & Hnew & Hsound).
      exists tasks', w2. split; [exact Hall|].
      split; [by eapply keeps_files_trans|].
      split; [intros t Ht; apply Hold, elem_of_app; by left|]. split.
      * intros a u name [[= -> ->]|Hin]%elem_of_cons Hsome Hfile Hne Hslash.
        -- apply Hold, elem_of_app. right.
           apply (list_elem_of_fmap_2
                    (fun filename =>
                       (path_join (path_join EXPORT_DIR artist) filename,
                        public_url_of E artist filename))).
           apply listdir_files_iff. split; [by apply Hkeep|done].
        -- apply (Hnew a u name); [done..| |done|done]. by apply Hkeep.
      * intros t Ht. destruct (Hsound t Ht) as [Hin|Hex].
        -- apply elem_of_app in Hin as [Hin|Hin]; [by left|right].
           apply list_elem_of_fmap in Hin as (name & -> & Hname).
           apply listdir_files_iff in Hname as (Hfile & Hne & Hslash).
           exists artist, url, name. split; [left|].
           split; [done|]. split; [done|]. split; [done|]. by apply Hkeep2.
        -- right. destruct Hex as (a & u & name & Hin & Heq).
           exists a, u, name. split; [by right|done].
    + destruct (IH tasks w) as (tasks' & w2 & Hall & Hkeep2 & Hold & Hnew & Hsound).
      exists tasks', w2. split; [exact Hall|]. split; [done|].
      split; [done|]. split.
      * intros a u name [[= -> ->]|Hin]%elem_of_cons Hsome Hfile Hne Hslash.
        -- rewrite Hid in Hsome. by destruct Hsome.
        -- by apply (Hnew a u name).
      * intros t Ht. destruct (Hsound t Ht) as [Hin|Hex]; [by left|right].
        destruct Hex as (a & u & name & Hin & Heq).
        exists a, u, name. split; [by right|done].
Qed.

Lemma ends_with_slash_app (s t : string) :
  t <> "" -> ends_with_slash (s +:+ t) = ends_with_slash t.
Proof.
  intros Ht. induction s as [|c s IH]; [done|].
  cbn [String.append]. simpl. rewrite IH.
  destruct (s +:+ t) eqn:Hst; [|done].
  destruct s; [by subst|done].
Qed.

(** The paths that [run_once] builds for a name of the catalog. *)
Lemma artist_dir_plain (artist : string) :
  artist <> "" -> Str.all is_lower_alnum artist = true ->
  path_join EXPORT_DIR artist = "downloads/" +:+ artist
  /\ forall name,
       no_slash name = true ->
       path_join (path_join EXPORT_DIR artist) name
       = "downloads/" +:+ artist +:+ "/" +:+ name.
Proof.
  intros Hne Hall.
  assert (no_slash artist = true) as Hslash.
  { unfold no_slash. eapply str_all_impl; [|exact Hall].
    intros c Hc. destruct (Ascii.eqb_spec c "/") as [->|]; [done|done]. }
  assert (forall s, no_slash s = true -> match s with
                                         | String "/" _ => False
                                         | _ => True
                                         end) as Hfirst.
  { intros [|c s] Hs; [done|]. unfold no_slash in Hs. simpl in Hs.
    apply andb_true_iff in Hs as [Hc _].
    destruct c as [[] [] [] [] [] [] [] []]; done. }
  assert (path_join EXPORT_DIR artist = "downloads/" +:+ artist) as Hdir.
  { unfold path_join. pose proof (Hfirst artist Hslash) as Hf.
    destruct artist as [|c s]; [done|].
    destruct c as [[] [] [] [] [] [] [] []]; done. }
  split; [exact Hdir|]. intros name Hname. rewrite Hdir.
  assert (ends_with_slash ("downloads/" +:+ artist) = false) as Hend.
  { rewrite ends_with_slash_app by done.
    destruct (ends_with_slash artist) eqn:He; [|done].
    apply ends_with_slash_has_slash in He. unfold no_slash in Hslash.
    congruence. }
  assert (String.eqb ("downloads/" +:+ artist) "" = false) as Hempty
    by reflexivity.
  unfold path_join. rewrite Hend, Hempty. cbn [orb].
  rewrite str_app_assoc. pose proof (Hfirst name Hname) as Hf.
  destruct name as [|c s]; [done|].
  destruct c as [[] [] [] [] [] [] [] []]; done.
Qed.

Lemma fetched_entries (E : env) (remote_data : list (string * string)) :
  fetched E = ok remote_data -> Forall catalog_entry remote_data.
Proof.
  unfold fetched, parse_csv.
  destruct (http_get E REMOTE_CSV_URL) as [r|]; [|done].
  destruct ((400 <=? status_code r) && (status_code r <? 600)); [done|].
  destruct (dict_reader E (content r)) as [rows failure].
  destruct (parse_rows [] rows) as [e|res] eqn:Hrows; simpl; [done|].
  destruct failure; simpl; [done|]. intros [= <-].
  by apply (parse_rows_entries rows [] res); [apply NoDup_nil_2|constructor|].
Qed.

(** An entry of the change set is an entry of the fetched catalog. *)
Lemma to_update_entry (E : env) (remote_data cached : list (string * string))
    (artist url : string) :
  fetched E = ok remote_data ->
  (artist, url) ∈ to_update remote_data cached ->
  catalog_entry (artist, url).
Proof.
  intros Hfetch Hin.
  rewrite to_update_filter in Hin by (by eapply fetched_wf).
  apply list_elem_of_In, filter_In in Hin as [Hin _].
  pose proof (fetched_entries E remote_data Hfetch) as Hall.
  rewrite Forall_forall in Hall. by apply Hall, list_elem_of_In.
Qed.

(** A cycle that fetches the catalog, step by step. *)
Lemma run_once_steps (E : env) (w : world)
    (remote_data : list (string * string)) :
  fetched E = ok remote_data ->
  exists tasks w1 w2,
    update_all E (to_update remote_data (cached_catalog w)) []
      (emit (Get REMOTE_CSV_URL) w) = (ok tasks, w1)
    /\ start_threads tasks w1 = (ok tt, w2)
    /\ files w2 = files w1
    /\ trace w2 = trace w1 ++ map spawn_event tasks
    /\ run_once E w = (ok tt, set_cache (Some remote_data) w2).
Proof.
  intros Hfetch.
  assert (forall tasks w0, files (snd (start_threads tasks w0)) = files w0)
    as Hfiles.
  { induction tasks as [|[file_path public_url] tasks IH]; intros w0; [done|].
    simpl. io_unfold. by rewrite IH. }
  unfold run_once, load_cached_csv, save_csv. io_unfold.
  rewrite fetch_remote_out, Hfetch. simpl. fold (cached_catalog w).
  destruct (to_update remote_data (cached_catalog w)) as [|item items] eqn:Hup.
  - exists [], (emit (Get REMOTE_CSV_URL) w), (emit (Get REMOTE_CSV_URL) w).
    simpl. by rewrite app_nil_r.
  - destruct (update_all_trace E (item :: items) []
                (emit (Get REMOTE_CSV_URL) w)) as (tasks & w1 & -> & _).
    unfold ok. pose proof (Hfiles tasks w1) as Hf.
    destruct (start_threads_trace tasks w1) as (w2 & Hst & Ht2).
    rewrite Hst in *. simpl in Hf.
    by exists tasks, w1, w2.
Qed.

(** ** The threads of a cycle (main.py, lines 220-240) *)

(** X29.  In a cycle that fetches the catalog, every file that lies in the
    directory of a changed entry when the cycle starts is handed to a
    thread, with the public URL made of the quoted name of the artist and
    the quoted file name: not only what the cycle downloads, but also what
    earlier cycles left there, the ".meta" sidecars that [archive_file]
    wrote included. *)
Theorem run_once_archives_directory (E : env) (w : world)
    (remote_data : list (string * string)) (artist url name : string) :
  fetched E = ok remote_data ->
  (artist, url) ∈ to_update remote_data (cached_catalog w) ->
  name <> "" -> no_slash name = true ->
  is_Some (files w !! ("downloads/" +:+ artist +:+ "/" +:+ name)) ->
  Spawn ("downloads/" +:+ artist +:+ "/" +:+ name) (public_url_of E artist name)
  ∈ trace (snd (run_once E w)).
Proof.
  intros Hfetch Hin Hne Hslash Hfile.
  destruct (to_update_entry E _ _ _ _ Hfetch Hin)
    as (Ha & Hall & id & _ & _ & _ & Hid).
  simpl in Ha, Hall, Hid.
  destruct (artist_dir_plain artist Ha Hall) as [Hdir Hpath].
  destruct (run_once_steps E w remote_data Hfetch)
    as (tasks & w1 & w2 & Hupd & _ & _ & Ht2 & ->).
  destruct (update_all_tasks E (to_update remote_data (cached_catalog w)) []
              (emit (Get REMOTE_CSV_URL) w))
    as (tasks' & w1' & Hupd' & _ & _ & Hnew & _).
  rewrite Hupd in Hupd'. injection Hupd' as <- <-.
  unfold set_cache. simpl. rewrite Ht2. apply elem_of_app. right.
  assert (task_of E artist name ∈ tasks) as Htask.
  { apply (Hnew artist url name); [done|by rewrite Hid| |done|done].
    rewrite Hdir, str_app_assoc. exact Hfile. }
  apply (list_elem_of_fmap_2 spawn_event) in Htask.
  change (Spawn (path_join (path_join EXPORT_DIR artist) name)
            (public_url_of E artist name) ∈ spawn_event <$> tasks) in Htask.
  by rewrite Hpath in Htask.
Qed.

Lemma run_once_archives_directory_witness :
  fetched (sample_env (ok "archived") 200)
  = ok [("jssmith", sample_canonical)]
  /\ Spawn "downloads/jssmith/notes.txt.meta"
       (public_url_of (sample_env (ok "archived") 200) "jssmith"
          "notes.txt.meta")
     ∈ trace (snd (run_once (sample_env (ok "archived") 200) stale_world)).
Proof.
  split; [reflexivity|].
  apply (run_once_archives_directory (sample_env (ok "archived") 200)
           stale_world [("jssmith", sample_canonical)] "jssmith"
           sample_canonical "notes.txt.meta").
  - reflexivity.
  - vm_compute. left.
  - done.
  - reflexivity.
  - vm_compute. eexists. reflexivity.
Defined.

(** X30.  The threads that a cycle starts are never for anything else:
    each one is for a file that lies directly in the directory
    "downloads/<artist>" of an entry of the change set, a file that is
    there when the cycle ends, and its URL is the public URL of that
    file. *)
Theorem run_once_threads_origin (E : env) (w : world)
    (file_path public_url : string) :
  Spawn file_path public_url ∈ trace (snd (run_once E w)) ->
  Spawn file_path public_url ∈ trace w
  \/ exists remote_data artist url name,
       fetched E = ok remote_data
       /\ (artist, url) ∈ to_update remote_data (cached_catalog w)
       /\ name <> "" /\ no_slash name = true
       /\ file_path = "downloads/" +:+ artist +:+ "/" +:+ name
       /\ public_url = public_url_of E artist name
       /\ is_Some (files (snd (run_once E w)) !! file_path).
Proof.
  destruct (fetched E) as [e|remote_data] eqn:Hfetch.
  - unfold run_once. io_unfold. rewrite fetch_remote_out, Hfetch. simpl.
    intros [Hin|Hin%list_elem_of_singleton]%elem_of_app; [by left|done].
  - destruct (run_once_steps E w remote_data Hfetch)
      as (tasks & w1 & w2 & Hupd & _ & Hfiles & Ht2 & ->).
    destruct (update_all_tasks E (to_update remote_data (cached_catalog w)) []
                (emit (Get REMOTE_CSV_URL) w))
      as (tasks' & w1' & Hupd' & _ & _ & _ & Hsound).
    rewrite Hupd in Hupd'. injection Hupd' as <- <-.
    destruct (update_all_trace E (to_update remote_data (cached_catalog w)) []
                (emit (Get REMOTE_CSV_URL) w)) as (tasks' & w1' & Hupd' & Ht1).
    rewrite Hupd in Hupd'. injection Hupd' as <- <-.
    unfold set_cache. simpl. rewrite Ht2, Ht1. simpl.
    intros [[[Hin|Hin%list_elem_of_singleton]%elem_of_app|Hin]%elem_of_app
           |Hin]%elem_of_app.
    + by left.
    + done.
    + exfalso.
      apply list_elem_of_In, in_flat_map in Hin as ([a u] & _ & Hin).
      unfold download_gets in Hin. simpl in Hin.
      destruct (extract_sheet_id u); simpl in Hin; [|done].
      by destruct Hin as [Hin|[Hin|[]]].
    + right. apply list_elem_of_fmap in Hin as (t & Heq & Ht).
      destruct (Hsound t Ht) as [Hnil|Hex]; [by apply elem_of_nil in Hnil|].
      destruct Hex as (artist & url & name & Hin & -> & Hne & Hslash & Hfile).
      destruct (to_update_entry E _ _ _ _ Hfetch Hin)
        as (Ha & Hall & _).
      simpl in Ha, Hall.
      destruct (artist_dir_plain artist Ha Hall) as [Hdir Hpath].
      change (Spawn file_path public_url
              = Spawn (path_join (path_join EXPORT_DIR artist) name)
                  (public_url_of E artist name)) in Heq.
      rewrite Hpath in Heq by done. injection Heq as -> ->.
      exists remote_data, artist, url, name.
      do 6 (split; [done|]). rewrite Hfiles.
      rewrite Hdir, str_app_assoc in Hfile. exact Hfile.
Qed.

Lemma run_once_threads_origin_witness :
  Spawn "downloads/jssmith/notes.txt"
    (public_url_of (sample_env (ok "archived") 200) "jssmith" "notes.txt")
  ∈ trace (snd (run_once (sample_env (ok "archived") 200) stale_world))
  /\ (Spawn "downloads/jssmith/notes.txt"
        (public_url_of (sample_env (ok "archived") 200) "jssmith" "notes.txt")
      ∈ trace stale_world
      \/ exists remote_data artist url name,
           fetched (sample_env (ok "archived") 200) = ok remote_data
           /\ (artist, url) ∈ to_update remote_data (cached_catalog stale_world)
           /\ name <> "" /\ no_slash name = true
           /\ "downloads/jssmith/notes.txt"
              = "downloads/" +:+ artist +:+ "/" +:+ name
           /\ public_url_of (sample_env (ok "archived") 200) "jssmith"
                "notes.txt"
              = public_url_of (sample_env (ok "archived") 200) artist name
           /\ is_Some (files (snd (run_once (sample_env (ok "archived") 200)
                                     stale_world))
                       !! "downloads/jssmith/notes.txt")).
Proof.
  assert (Spawn "downloads/jssmith/notes.txt"
            (public_url_of (sample_env (ok "archived") 200) "jssmith"
               "notes.txt")
          ∈ trace (snd (run_once (sample_env (ok "archived") 200)
                          stale_world))) as Hin.
  { vm_compute. repeat first [by left | right]. }
  split; [exact Hin|].
  exact (run_once_threads_origin (sample_env (ok "archived") 200) stale_world
           _ _ Hin).
Defined.
